(** * Model downloader: a shallow embedding of [model_downloader.py]

    The development follows the Python module
    [src-tauri/resources/python_sidecar/model_downloader.py]:

    - Python [int] values are [Z]; Python [float] values (percentages,
      speeds, timestamps) are idealised as exact rationals [Qc], so rounding
      is not modelled;
    - file contents and response chunks are lists of bytes; the file system
      is a finite map from path strings to contents;
    - the network is an oracle ([world]) that fixes what the server answers;
      every request, file-system access and progress callback is appended
      to a chronological [trace];
    - exceptions are values of [exn]; a computation is a function from the
      state to a result and a new state, so that the effects done before an
      exception is raised stay visible;
    - the catalog of recommended models lives in a heap of objects, so that
      a copied dictionary shares the model objects of the original.

    Outside the model: file-system calls that fail (permissions, disk
    full), a progress callback that raises, [rename] on platforms where
    an existing target is an error, and an interpreter whose limit on the
    digits of an integer literal was changed from its default. *)

From Stdlib Require Import ZArith QArith Qcanon Lia Ascii String List Sorted.
From Equations.Prop Require Import Equations Logic.
From stdpp Require Import gmap strings list.

Local Open Scope Z_scope.

(** ** Data *)

Abbreviation bytes := (list Byte.byte).

(** [len(chunk)] *)
Definition len (b : bytes) : Z := Z.of_nat (length b).

(** The dataclass [ModelInfo]. *)
Record ModelInfo := mkModelInfo {
  repo_id : string;
  filename : string;
  display_name : string;
  size_gb : Qc;
  quantization : string
}.

(** [ModelInfo.get_download_url] *)
Definition get_download_url (m : ModelInfo) : string :=
  "https://huggingface.co/" +:+ repo_id m +:+ "/resolve/main/" +:+ filename m.

(** ** Exceptions

    Every [raise] of the module builds a plain [Exception] around a message;
    the constructors name the raise sites and keep the wrapped cause where
    the message interpolates [{e}]. *)
Inductive exn :=
| RequestException
    (* requests.exceptions.RequestException, raised by the HTTP layer *)
| ValueError_int (literal : string)
    (* int() on something that is not an integer literal *)
| ValueError_hash (algorithm : string)
    (* hashlib.new on an unsupported algorithm name *)
| ValueError_unknown_model (key : string)
    (* get_model_info: "Unknown model: ..." *)
| ZeroDivisionError
| TypeError_length
    (* hexdigest() of a variable-length digest, called without a length *)
| Exc_remote_size (cause : exn)
    (* get_remote_size: "Could not get remote file size: {e}" *)
| Exc_remote_size_zero
    (* download: "Could not determine remote file size" *)
| Exc_incomplete (downloaded remote_size : Z)
    (* download: "Download incomplete: {downloaded} != {remote_size}" *)
| Exc_download_failed (cause : exn)
    (* download: "Download failed: {e}" *)
| Exc_download_error (cause : exn)
    (* download: "Download error: {e}" *)
| Exc_file_not_downloaded.
    (* calculate_checksum: "File not downloaded" *)

Inductive result (A : Type) :=
| Ok (a : A)
| Raise (e : exn).
Arguments Ok {A} a.
Arguments Raise {A} e.

(** [isinstance(e, requests.exceptions.RequestException)] *)
Definition is_RequestException (e : exn) : bool :=
  match e with RequestException => true | _ => false end.

(** The error taxonomy of the specification, read on the raise sites: the
    two failures to obtain a usable remote size, and the byte-count mismatch
    as [download] lets it escape (wrapped by its last handler). *)
Definition RemoteMetadataError (e : exn) : bool :=
  match e with
  | Exc_remote_size _ | Exc_remote_size_zero => true
  | _ => false
  end.

Definition IncompleteTransferError (e : exn) : bool :=
  match e with
  | Exc_download_error (Exc_incomplete _ _) => true
  | _ => false
  end.

(** ** Python's [int(str)]

    A header value is a string of Latin-1 characters (code points 0 to 255).
    [int] drops surrounding white space, accepts one sign, and reads
    decimal digits that may be grouped by single underscores.  White space
    is what the parser of integer literals skips: tab to carriage return and
    the space, and, in a string that is not pure ASCII, the characters that
    [int] first rewrites to a space, which in Latin-1 are U+0085 and U+00A0.
    The separators U+001C to U+001F are not skipped.  Latin-1 has no
    decimal digit besides [0] to [9].  A literal of more than
    [max_str_digits] digits is refused (the interpreter's default limit). *)
Definition is_space (c : ascii) : bool :=
  let n := N_of_ascii c in
  ((9 <=? n) && (n <=? 13) || (n =? 32) || (n =? 133) || (n =? 160))%N.

Definition max_str_digits : nat := 4300.

Definition digit_of (c : ascii) : option Z :=
  let n := Z.of_N (N_of_ascii c) in
  if (48 <=? n) && (n <=? 57) then Some (n - 48) else None.

Fixpoint lstrip (l : list ascii) : list ascii :=
  match l with
  | c :: r => if is_space c then lstrip r else l
  | [] => []
  end.

Definition strip (l : list ascii) : list ascii :=
  rev (lstrip (rev (lstrip l))).

(** [after_digit] tells whether the previous character was a digit: an
    underscore is accepted only between two digits. *)
Fixpoint digits (acc : Z) (after_digit : bool) (l : list ascii) : option Z :=
  match l with
  | [] => if after_digit then Some acc else None
  | c :: r =>
      match digit_of c with
      | Some d => digits (acc * 10 + d) true r
      | None =>
          if Ascii.eqb c "_" && after_digit then digits acc false r else None
      end
  end.

(** The number of digits of a literal; underscores do not count. *)
Fixpoint count_digits (l : list ascii) : nat :=
  match l with
  | [] => 0%nat
  | c :: r => match digit_of c with
              | Some _ => S (count_digits r)
              | None => count_digits r
              end
  end.

Definition literal (l : list ascii) : option Z :=
  if (count_digits l <=? max_str_digits)%nat
  then digits 0 false l else None.

Definition py_int (s : string) : option Z :=
  match strip (list_ascii_of_string s) with
  | "-"%char :: r => Z.opp <$> literal r
  | "+"%char :: r => literal r
  | r => literal r
  end.

(** ** The network oracle *)

(** The outcome of [requests.head]: either the call raises (no connection,
    timeout, too many redirects), or a response arrives, with its status
    code and its headers, keyed by lower-cased name as in requests'
    case-insensitive dictionary.  A response with an error status is a
    response: nothing is raised for it unless the caller asks. *)
Inductive head_result :=
| HeadFailed                                (* requests.head raised *)
| HeadOk (status_code : Z) (headers : gmap string string).

Inductive stream_end :=
| StreamDone                                (* the body iterator is exhausted *)
| StreamBroken.                             (* iter_content raised a RequestException *)

Inductive get_result :=
| GetFailed                                 (* requests.get or raise_for_status raised *)
| GetStream (chunks : list bytes) (ending : stream_end).

(** What the outside world answers during one call of [download]: the HEAD
    request of [get_remote_size], the HEAD request of [check_resume_support],
    the GET request (which may depend on the offset of its Range header) and
    the successive values of [time.time()]. *)
Record world := mkWorld {
  size_probe : head_result;
  range_probe : head_result;
  get_reply : option Z -> get_result;
  clock : nat -> Qc
}.

(** ** Progress messages

    The f-strings are kept as structured values: the constructor is the
    template, the arguments are the interpolated values before formatting. *)
Inductive eta :=
| EtaMinutes (minutes : Qc)                 (* f"{eta_seconds/60:.1f}m" *)
| EtaSeconds (seconds : Qc).                (* f"{eta_seconds:.0f}s" *)

Inductive message :=
| MsgStarting (name : string)
| MsgAlreadyDownloaded (path : string)
| MsgExistingIncomplete
| MsgResuming (downloaded : Z)
| MsgProgress (percent downloaded_mb total_mb : Qc)
| MsgProgressSpeed (percent downloaded_mb total_mb speed : Qc) (e : eta)
| MsgComplete (path : string).

(** ** Observable actions *)
Inductive open_mode := ModeWrite | ModeAppend | ModeRead.

Inductive event :=
| EvHead (url : string)
| EvGet (url : string) (range : option Z)
| EvCallback (percent : Qc) (msg : message)
| EvExists (path : string)
| EvStat (path : string)
| EvUnlink (path : string)
| EvOpen (path : string) (mode : open_mode)
| EvWrite (path : string) (chunk : bytes)
| EvRename (src dst : string).

(** ** State

    [fs] is the file system; [trace] the actions so far, oldest first;
    [ticks] counts the calls of [time.time()]; the next three fields are the
    attributes [_last_progress_time], [_last_downloaded_bytes] and
    [_start_time] of the downloader object.  [counter] is a history
    variable: it records every value assigned to the local variable
    [downloaded] of [download], oldest first. *)
Record state := mkState {
  fs : gmap string bytes;
  trace : list event;
  ticks : nat;
  last_progress_time : Qc;
  last_downloaded_bytes : Z;
  start_time : option Qc;
  counter : list Z
}.

(** The attributes as [__init__] leaves them. *)
Definition init_state (files : gmap string bytes) : state :=
  mkState files [] 0 0%Qc 0 None [].

(** ** Computations *)
Definition M (A : Type) : Type := state -> result A * state.

Definition ret {A} (a : A) : M A := fun s => (Ok a, s).
Definition raise {A} (e : exn) : M A := fun s => (Raise e, s).
Definition bind {A B} (c : M A) (k : A -> M B) : M B :=
  fun s => match c s with
           | (Ok a, s') => k a s'
           | (Raise e, s') => (Raise e, s')
           end.

(** [try: c except Exception as e: h e] *)
Definition try_except {A} (c : M A) (h : exn -> M A) : M A :=
  fun s => match c s with
           | (Ok a, s') => (Ok a, s')
           | (Raise e, s') => h e s'
           end.

Notation "x <- c1 ;; c2" := (bind c1 (fun x => c2))
  (at level 100, c1 at next level, right associativity).
Notation "c1 ;; c2" := (bind c1 (fun _ => c2))
  (at level 100, right associativity).

(** Append actions to the trace. *)
Definition log (evs : list event) (s : state) : state :=
  mkState (fs s) (trace s ++ evs) (ticks s)
    (last_progress_time s) (last_downloaded_bytes s)
    (start_time s) (counter s).

Definition emit (e : event) : M unit := fun s => (Ok tt, log [e] s).

Definition set_fs (f : gmap string bytes) : M unit :=
  fun s => (Ok tt, mkState f (trace s) (ticks s)
                     (last_progress_time s) (last_downloaded_bytes s)
                     (start_time s) (counter s)).

Definition get_fs : M (gmap string bytes) := fun s => (Ok (fs s), s).

(** [time.time()] *)
Definition time (w : world) : M Qc :=
  fun s => (Ok (clock w (ticks s)),
            mkState (fs s) (trace s) (S (ticks s))
              (last_progress_time s) (last_downloaded_bytes s)
              (start_time s) (counter s)).

Definition set_last_progress_time (t : Qc) : M unit :=
  fun s => (Ok tt, mkState (fs s) (trace s) (ticks s) t
                     (last_downloaded_bytes s) (start_time s) (counter s)).

Definition set_last_downloaded_bytes (n : Z) : M unit :=
  fun s => (Ok tt, mkState (fs s) (trace s) (ticks s)
                     (last_progress_time s) n (start_time s) (counter s)).

Definition set_start_time (t : Qc) : M unit :=
  fun s => (Ok tt, mkState (fs s) (trace s) (ticks s)
                     (last_progress_time s) (last_downloaded_bytes s)
                     (Some t) (counter s)).

(** Record an assignment to the local variable [downloaded]. *)
Definition assign_downloaded (n : Z) : M unit :=
  fun s => (Ok tt, mkState (fs s) (trace s) (ticks s)
                     (last_progress_time s) (last_downloaded_bytes s)
                     (start_time s) (counter s ++ [n])).

(** ** File-system primitives *)

(** [path.exists()] *)
Definition path_exists (p : string) : M bool :=
  emit (EvExists p) ;;
  f <- get_fs ;;
  ret (match f !! p with Some _ => true | None => false end).

(** [path.stat().st_size]; only called on existing files. *)
Definition stat_size (p : string) : M Z :=
  emit (EvStat p) ;;
  f <- get_fs ;;
  ret (from_option len 0 (f !! p)).

(** [path.unlink(missing_ok=True)] *)
Definition unlink (p : string) : M unit :=
  emit (EvUnlink p) ;;
  f <- get_fs ;;
  set_fs (delete p f).

(** [open(path, 'wb')] truncates or creates; [open(path, 'ab')] creates the
    file when it is missing and keeps its contents otherwise. *)
Definition open_for (p : string) (mode : open_mode) : M unit :=
  emit (EvOpen p mode) ;;
  f <- get_fs ;;
  match mode with
  | ModeWrite => set_fs (<[p := []]> f)
  | ModeAppend => set_fs (<[p := default [] (f !! p)]> f)
  | ModeRead => ret tt
  end.

(** [f.write(chunk)] on a file opened for writing or appending. *)
Definition write (p : string) (chunk : bytes) : M unit :=
  emit (EvWrite p chunk) ;;
  f <- get_fs ;;
  set_fs (<[p := default [] (f !! p) ++ chunk]> f).

(** [src.rename(dst)], with the POSIX behaviour of replacing [dst]. *)
Definition rename (src dst : string) : M unit :=
  emit (EvRename src dst) ;;
  f <- get_fs ;;
  match f !! src with
  | Some data => set_fs (<[dst := data]> (delete src f))
  | None => ret tt
  end.

(** ** Arithmetic on Python floats, idealised *)

Definition Qc_ltb (a b : Qc) : bool :=
  match (a ?= b)%Qc with Lt => true | _ => false end.

Definition Qc_leb (a b : Qc) : bool :=
  match (a ?= b)%Qc with Gt => false | _ => true end.

(** [a / b]: raises [ZeroDivisionError] on a zero divisor. *)
Definition py_truediv (a b : Qc) : result Qc :=
  if Qc_eq_dec b 0%Qc then Raise ZeroDivisionError else Ok (a / b)%Qc.

Definition lift {A} (r : result A) : M A := fun s => (r, s).

Definition MiB : Qc := Qc_of_Z (1024 * 1024).

(** ** The downloader *)
Section Downloader.

Context (model_info : ModelInfo) (output_dir : string) (w : world).

(** [self.final_path] and [self.temp_path] of [__init__].  A path is
    rendered as the directory, a slash and the name, which is what joining
    gives for a name that is not empty, not [.] and has no slash
    ([plain_name] below); for other names only the fact that the two paths
    differ is relied on. *)
Definition final_path : string :=
  output_dir +:+ "/" +:+ filename model_info.

Definition temp_path : string :=
  output_dir +:+ "/" +:+ (filename model_info +:+ ".download").

(** The caller's sink is observed through the trace. *)
Definition progress_callback (percent : Qc) (msg : message) : M unit :=
  emit (EvCallback percent msg).

(** [percent = (downloaded / total * 100) if total > 0 else 0] *)
Definition percent_of (downloaded total : Z) : result Qc :=
  if 0 <? total then
    match py_truediv (Qc_of_Z downloaded) (Qc_of_Z total) with
    | Ok q => Ok (q * Qc_of_Z 100)%Qc
    | Raise e => Raise e
    end
  else Ok 0%Qc.

(** [_report_progress] *)
Definition _report_progress (downloaded total : Z) (speed : Qc) : M unit :=
  percent <- lift (percent_of downloaded total) ;;
  let downloaded_mb := (Qc_of_Z downloaded / MiB)%Qc in
  let total_mb := (Qc_of_Z total / MiB)%Qc in
  msg <- (if Qc_ltb 0%Qc speed then
            eta_seconds <- lift (py_truediv (Qc_of_Z (total - downloaded))
                                            (speed * Qc_of_Z 1024 * Qc_of_Z 1024)%Qc) ;;
            let eta_str :=
              if Qc_ltb (Qc_of_Z 60) eta_seconds
              then EtaMinutes (eta_seconds / Qc_of_Z 60)%Qc
              else EtaSeconds eta_seconds in
            ret (MsgProgressSpeed percent downloaded_mb total_mb speed eta_str)
          else
            ret (MsgProgress percent downloaded_mb total_mb)) ;;
  progress_callback percent msg.

(** [check_resume_support]: any failure of the request counts as "no". *)
Definition check_resume_support (url : string) : M bool :=
  try_except
    (emit (EvHead url) ;;
     match range_probe w with
     | HeadFailed => raise RequestException
     | HeadOk _ headers =>
         ret (bool_decide (headers !! "accept-ranges" = Some "bytes"))
     end)
    (fun _ => ret false).

(** [get_remote_size]: the status of the response is not looked at;
    [headers.get('content-length', 0)] is the header string, or the integer
    0 when the header is missing; [int] of that may raise, and every
    exception is wrapped. *)
Definition get_remote_size (url : string) : M Z :=
  try_except
    (emit (EvHead url) ;;
     match size_probe w with
     | HeadFailed => raise RequestException
     | HeadOk _ headers =>
         match headers !! "content-length" with
         | None => ret 0
         | Some s =>
             match py_int s with
             | Some n => ret n
             | None => raise (ValueError_int s)
             end
         end
     end)
    (fun e => raise (Exc_remote_size e)).

(** [verify_download] *)
Definition verify_download (expected_size : option Z) : M bool :=
  ex <- path_exists final_path ;;
  if negb ex then ret false
  else
    actual_size <- stat_size final_path ;;
    match expected_size with
    | Some n => ret (actual_size =? n)
    | None => ret (0 <? actual_size)
    end.

(** The body of [for chunk in response.iter_content(...)], with the
    running value of [downloaded] as accumulator. *)
Definition on_chunk (remote_size : Z) (chunk : bytes) (downloaded : Z) : M Z :=
  match chunk with
  | [] => ret downloaded
  | _ =>
      write temp_path chunk ;;
      let downloaded := downloaded + len chunk in
      assign_downloaded downloaded ;;
      current_time <- time w ;;
      last <- (fun s => (Ok (last_progress_time s), s)) ;;
      (if Qc_leb 1%Qc (current_time - last)%Qc then
         started <- (fun s => (Ok (default 0%Qc (start_time s)), s)) ;;
         base <- (fun s => (Ok (last_downloaded_bytes s), s)) ;;
         let elapsed := (current_time - started)%Qc in
         speed <- (if Qc_ltb 0%Qc elapsed
                   then lift (py_truediv (Qc_of_Z (downloaded - base)) elapsed)
                   else ret 0%Qc) ;;
         _report_progress downloaded remote_size speed ;;
         set_last_progress_time current_time
       else ret tt) ;;
      ret downloaded
  end.

Fixpoint stream_loop (remote_size : Z) (chunks : list bytes) (downloaded : Z)
  : M Z :=
  match chunks with
  | [] => ret downloaded
  | chunk :: rest =>
      downloaded <- on_chunk remote_size chunk downloaded ;;
      stream_loop remote_size rest downloaded
  end.

(** Lines 194-203: the size of the partial file, and the decision to keep
    or to discard it. *)
Definition partial_download (resume : bool) (url : string) : M Z :=
  tex <- path_exists temp_path ;;
  downloaded <- (if tex then stat_size temp_path else ret 0) ;;
  assign_downloaded downloaded ;;
  if 0 <? downloaded then
    supported <- (if resume then check_resume_support url else ret false) ;;
    if resume && supported then
      progress_callback 0%Qc (MsgResuming downloaded) ;;
      ret downloaded
    else
      unlink temp_path ;;
      assign_downloaded 0 ;;
      ret 0
  else ret downloaded.

(** Lines 214-246: the body of the [try] block. *)
Definition transfer (url : string) (remote_size downloaded : Z) : M string :=
  let range := if 0 <? downloaded then Some downloaded else None in
  emit (EvGet url range) ;;
  match get_reply w range with
  | GetFailed => raise RequestException
  | GetStream chunks ending =>
      let mode := if 0 <? downloaded then ModeAppend else ModeWrite in
      open_for temp_path mode ;;
      downloaded <- stream_loop remote_size chunks downloaded ;;
      match ending with
      | StreamBroken => raise RequestException
      | StreamDone =>
          _report_progress downloaded remote_size 0%Qc ;;
          if negb (downloaded =? remote_size) then
            raise (Exc_incomplete downloaded remote_size)
          else
            rename temp_path final_path ;;
            progress_callback (Qc_of_Z 100) (MsgComplete final_path) ;;
            ret final_path
      end
  end.

(** Lines 248-251: the two [except] clauses, tried in order. *)
Definition handlers (e : exn) : M string :=
  if is_RequestException e
  then raise (Exc_download_failed e)
  else raise (Exc_download_error e).

(** [download] *)
Definition download (resume : bool) : M string :=
  let url := get_download_url model_info in
  remote_size <- get_remote_size url ;;
  if remote_size =? 0 then raise Exc_remote_size_zero
  else
    progress_callback 0%Qc (MsgStarting (display_name model_info)) ;;
    ex <- path_exists final_path ;;
    complete <- (if ex then verify_download (Some remote_size) else ret false) ;;
    if ex && complete then
      progress_callback (Qc_of_Z 100) (MsgAlreadyDownloaded final_path) ;;
      ret final_path
    else
      (if ex then progress_callback 0%Qc MsgExistingIncomplete else ret tt) ;;
      downloaded <- partial_download resume url ;;
      start <- time w ;;
      set_start_time start ;;
      set_last_downloaded_bytes downloaded ;;
      try_except (transfer url remote_size downloaded) handlers.

End Downloader.

(** ** Checksums

    [hashlib] is outside the module: a hash object is anything that can be
    created by name (or refused), fed with chunks, and asked for its hex
    digest.  [hexdigest()] without argument raises for the digests of
    variable length ([shake_128], [shake_256]), which [hashlib.new]
    accepts. *)
Definition read_size : nat := Z.to_nat 8192.

Section Checksum.

Context {hasher : Type}.
Context (hashlib_new : string -> option hasher).
Context (update : hasher -> bytes -> hasher).
Context (hexdigest : hasher -> result string).
Context (model_info : ModelInfo) (output_dir : string).

(** [for chunk in iter(lambda: f.read(8192), b''): hash_func.update(chunk)]
    on the bytes that are still unread. *)
Equations? hash_chunks (h : hasher) (unread : bytes) : hasher
  by wf (length unread) lt :=
  hash_chunks h unread with inspect (take read_size unread) => {
    | exist _ [] _ := h ;
    | exist _ (b :: chunk) _ :=
        hash_chunks (update h (b :: chunk)) (drop read_size unread) }.
Proof.
  assert (length (take read_size unread) <> 0%nat) as Hlen
    by (intros Hz; rewrite e in Hz; discriminate).
  rewrite length_take in Hlen. rewrite length_drop.
  unfold read_size in *. lia.
Qed.

(** [calculate_checksum] *)
Definition calculate_checksum (algorithm : string) : M string :=
  ex <- path_exists (final_path model_info output_dir) ;;
  if negb ex then raise Exc_file_not_downloaded
  else
    match hashlib_new algorithm with
    | None => raise (ValueError_hash algorithm)
    | Some hash_func =>
        open_for (final_path model_info output_dir) ModeRead ;;
        f <- get_fs ;;
        let data := default [] (f !! final_path model_info output_dir) in
        lift (hexdigest (hash_chunks hash_func data))
    end.

End Checksum.

(** ** The catalog of recommended models

    [RECOMMENDED_MODELS] is a class attribute holding a dictionary object
    whose values are references to [ModelInfo] objects.  Dictionaries and
    model objects live in a heap, so that a copy of the dictionary shares
    the objects it refers to. *)
Module Catalog.

Definition loc := nat.

Inductive obj :=
| ODict (entries : gmap string loc)
| OModel (m : ModelInfo).

(** The heap and the binding of the class attribute. *)
Record pystate := mkPy {
  heap : gmap loc obj;
  RECOMMENDED_MODELS : loc
}.

Definition floppa (file quant name : string) (gb : Qc) : ModelInfo :=
  mkModelInfo "mradermacher/Floppa-12B-Gemma3-Uncensored-GGUF"
              file name gb quant.

(** The state after the class body has run. *)
Definition initial : pystate :=
  mkPy
    (<[0%nat := ODict (<["floppa-12b-q4" := 1%nat]>
                      (<["floppa-12b-q5" := 2%nat]>
                      (<["floppa-12b-q6" := 3%nat]> ∅)))]>
     (<[1%nat := OModel (floppa "Floppa-12B-Gemma3-Uncensored.Q4_K_S.gguf"
                          "Q4_K_S" "Floppa-12B (Q4_K_S)"
                          (Qc_of_Z 646 / Qc_of_Z 100)%Qc)]>
     (<[2%nat := OModel (floppa "Floppa-12B-Gemma3-Uncensored.Q5_K_M.gguf"
                          "Q5_K_M" "Floppa-12B (Q5_K_M)"
                          (Qc_of_Z 793 / Qc_of_Z 100)%Qc)]>
     (<[3%nat := OModel (floppa "Floppa-12B-Gemma3-Uncensored.Q6_K.gguf"
                          "Q6_K" "Floppa-12B (Q6_K)"
                          (Qc_of_Z 941 / Qc_of_Z 100)%Qc)]> ∅))))
    0%nat.

(** The entries of the dictionary at [d]. *)
Definition entries_at (d : loc) (p : pystate) : gmap string loc :=
  match heap p !! d with
  | Some (ODict es) => es
  | _ => ∅
  end.

(** [cls.RECOMMENDED_MODELS.copy()]: a new dictionary object with the same
    keys and the same references. *)
Definition list_available_models (p : pystate) : loc * pystate :=
  let d := fresh (dom (heap p)) in
  (d, mkPy (<[d := ODict (entries_at (RECOMMENDED_MODELS p) p)]> (heap p))
           (RECOMMENDED_MODELS p)).

(** [get_model_info] *)
Definition get_model_info (model_key : string) (p : pystate) : result loc :=
  match entries_at (RECOMMENDED_MODELS p) p !! model_key with
  | None => Raise (ValueError_unknown_model model_key)
  | Some l => Ok l
  end.

(** The operations that mutate a dictionary object. *)
Inductive dict_mutation :=
| SetItem (k : string) (v : loc)            (* d[k] = v *)
| DelItem (k : string)                      (* del d[k], d.pop(k) *)
| Clear                                     (* d.clear() *)
| Update (other : gmap string loc)          (* d.update(other) *)
| SetDefault (k : string) (v : loc).        (* d.setdefault(k, v) *)

Definition mutate_entries (op : dict_mutation) (es : gmap string loc)
  : gmap string loc :=
  match op with
  | SetItem k v => <[k := v]> es
  | DelItem k => delete k es
  | Clear => ∅
  | Update other => other ∪ es
  | SetDefault k v => match es !! k with Some _ => es | None => <[k := v]> es end
  end.

(** Apply a mutation to the dictionary object at [d]; nothing happens when
    [d] is not a dictionary. *)
Definition mutate (d : loc) (p : pystate) (op : dict_mutation) : pystate :=
  match heap p !! d with
  | Some (ODict es) =>
      mkPy (<[d := ODict (mutate_entries op es)]> (heap p))
           (RECOMMENDED_MODELS p)
  | _ => p
  end.

(** The program may also allocate new model objects to store in its copy. *)
Definition new_model (m : ModelInfo) (p : pystate) : loc * pystate :=
  let l := fresh (dom (heap p)) in
  (l, mkPy (<[l := OModel m]> (heap p)) (RECOMMENDED_MODELS p)).

(** [obj.filename = name] on the model object at [l]. *)
Definition set_filename (l : loc) (name : string) (p : pystate) : pystate :=
  match heap p !! l with
  | Some (OModel m) =>
      mkPy (<[l := OModel (mkModelInfo (repo_id m) name (display_name m)
                             (size_gb m) (quantization m))]> (heap p))
           (RECOMMENDED_MODELS p)
  | _ => p
  end.

(** What a caller sees of the catalog: for every key, the model it gets
    from [get_model_info], read in the heap. *)
Definition lookup_model (model_key : string) (p : pystate) : result (option obj) :=
  match get_model_info model_key p with
  | Ok l => Ok (heap p !! l)
  | Raise e => Raise e
  end.

(** The dictionary returned by [list_available_models], with the objects
    its values refer to. *)
Definition listed_models (p : pystate) : gmap string (option obj) :=
  let '(d, p') := list_available_models p in
  (fun l => heap p' !! l) <$> entries_at d p'.

(** Every reference stored in the catalog points to an allocated object. *)
Definition catalog_ok (p : pystate) : Prop :=
  (exists es, heap p !! RECOMMENDED_MODELS p = Some (ODict es)) /\
  forall k l, entries_at (RECOMMENDED_MODELS p) p !! k = Some l ->
              is_Some (heap p !! l).

(** What a program holding the returned dictionary may do next: mutate that
    dictionary, or allocate a model object (to store it in its copy). *)
Inductive action :=
| Mutate (op : dict_mutation)
| Allocate (m : ModelInfo).

Definition act (d : loc) (p : pystate) (a : action) : pystate :=
  match a with
  | Mutate op => mutate d p op
  | Allocate m => snd (new_model m p)
  end.

(** [p'] extends [p]: same class attribute, and every object of [p] is
    unchanged in [p']. *)
Definition extends (p p' : pystate) : Prop :=
  RECOMMENDED_MODELS p' = RECOMMENDED_MODELS p /\
  forall l, is_Some (heap p !! l) -> heap p' !! l = heap p !! l.

End Catalog.

(** ** The decisions of [download] as functions of its inputs *)
Section Plan.
Context (mi : ModelInfo) (dir : string) (w : world).

(** The size of the partial file, 0 when there is none (line 195). *)
Definition partial_size (s : state) : Z :=
  from_option len 0 (fs s !! temp_path mi dir).

(** What [check_resume_support] answers. *)
Definition supports_ranges : bool :=
  match range_probe w with
  | HeadFailed => false
  | HeadOk _ headers => bool_decide (headers !! "accept-ranges" = Some "bytes")
  end.

(** The partial file is thrown away (the [else] branch of line 200). *)
Definition discards (resume : bool) (s : state) : bool :=
  (0 <? partial_size s) && negb (resume && supports_ranges).

(** The offset the transfer starts from. *)
Definition start_offset (resume : bool) (s : state) : Z :=
  if discards resume s then 0 else partial_size s.

(** The final file is there with the expected size (lines 187-188). *)
Definition already_complete (remote_size : Z) (s : state) : bool :=
  match fs s !! final_path mi dir with
  | Some data => len data =? remote_size
  | None => false
  end.
End Plan.

(** The [Range] header of line 208. *)
Definition range_of (downloaded : Z) : option Z :=
  if 0 <? downloaded then Some downloaded else None.

(** Actions that may precede the GET request. *)
Definition prelude_event (tmp : string) (e : event) : Prop :=
  match e with
  | EvHead _ | EvCallback _ _ | EvExists _ | EvStat _ => True
  | EvUnlink p => p = tmp
  | _ => False
  end.

(** The actions of the loop: writes to the partial file and progress reports. *)
Definition stream_event (tmp : string) (e : event) : Prop :=
  match e with
  | EvWrite p _ => p = tmp
  | EvCallback _ _ => True
  | _ => False
  end.

(** [rises_from lo l]: [lo :: l] never decreases. *)
Fixpoint rises_from (lo : Z) (l : list Z) : Prop :=
  match l with
  | [] => True
  | x :: r => lo <= x /\ rises_from x r
  end.

(** A history of the counter that never decreases. *)
Definition nondecreasing (l : list Z) : Prop :=
  match l with
  | [] => True
  | x :: r => rises_from x r
  end.

(** The contents the partial file starts from once it is opened. *)
Definition kept (mi : ModelInfo) (dir : string) (k : Z) (s : state) : bytes :=
  if 0 <? k then default [] (fs s !! temp_path mi dir) else [].

(** ** Sample inputs

    A custom model saved under [/out], a three-byte body, and servers built
    from the headers they send. *)
Module Sample.

Definition model : ModelInfo := mkModelInfo "user/repo" "m.gguf" "M" 0%Qc "custom".
Definition dir : string := "/out".
Definition url : string := get_download_url model.
Definition final : string := final_path model dir.
Definition tmp : string := temp_path model dir.

Definition abc : bytes := [Byte.x61; Byte.x62; Byte.x63].
Definition de : bytes := [Byte.x64; Byte.x65].

Definition headers (content_length : option string) (ranges : bool)
  : gmap string string :=
  let base : gmap string string :=
    if ranges then {[ "accept-ranges" := "bytes" ]} else ∅ in
  match content_length with
  | Some v => <["content-length" := v]> base
  | None => base
  end.

(** [time.time()] advances by one second at every call. *)
Definition steady_clock (n : nat) : Qc := Qc_of_Z (1000 + Z.of_nat n).

Definition server (content_length : option string) (ranges : bool)
    (body : option Z -> get_result) : world :=
  mkWorld (HeadOk 200 (headers content_length ranges))
          (HeadOk 200 (headers content_length ranges))
          body steady_clock.

(** A server that sends the three bytes in one chunk, whatever is asked. *)
Definition whole : option Z -> get_result :=
  fun _ => GetStream [abc] StreamDone.

End Sample.

(** ** Reading traces *)

(** The progress callbacks of a trace, in order. *)
Fixpoint callbacks (tr : list event) : list (Qc * message) :=
  match tr with
  | [] => []
  | EvCallback p m :: r => (p, m) :: callbacks r
  | _ :: r => callbacks r
  end.

(** The GET requests of a trace, in order. *)
Fixpoint gets (tr : list event) : list (option Z) :=
  match tr with
  | [] => []
  | EvGet _ range :: r => range :: gets r
  | _ :: r => gets r
  end.

Definition is_rename (e : event) : bool :=
  match e with EvRename _ _ => true | _ => false end.

Definition is_get (e : event) : bool :=
  match e with EvGet _ _ => true | _ => false end.

(** The new actions of a call to [download]. *)
Definition new_events (s s' : state) : list event :=
  drop (length (trace s)) (trace s').

(** The values taken by [downloaded] during a call. *)
Definition new_counter (s s' : state) : list Z :=
  drop (length (counter s)) (counter s').

(** The speeds shown by the progress messages of a trace, in order. *)
Fixpoint reported_speeds (tr : list event) : list Qc :=
  match tr with
  | [] => []
  | EvCallback _ (MsgProgressSpeed _ _ _ speed _) :: r => speed :: reported_speeds r
  | _ :: r => reported_speeds r
  end.

(** The speed as the specification words it: the bytes received since the
    last sample over the time since the last sample, in MiB per second, and
    0 when no time has passed. *)
Definition spec_speed (bytes_since_last_sample : Z)
    (time_since_last_sample : Qc) : Qc :=
  if Qc_eq_dec time_since_last_sample 0%Qc then 0%Qc
  else (Qc_of_Z bytes_since_last_sample / time_since_last_sample / MiB)%Qc.

Module Toy.
(** A stand-in for [hashlib]: a hash object remembers whether its digest
    has a variable length and the bytes that were fed.  "md5" and
    "shake_128" are known; the digest spells out the bytes, and asking a
    variable-length digest for it without a length raises. *)
Definition hasher : Type := bool * bytes.
Definition new (algorithm : string) : option hasher :=
  if String.eqb algorithm "md5" then Some (false, [])
  else if String.eqb algorithm "shake_128" then Some (true, [])
  else None.
Definition update (h : hasher) (chunk : bytes) : hasher :=
  (fst h, snd h ++ chunk).
Definition hexdigest (h : hasher) : result string :=
  if fst h then Raise TypeError_length else Ok (string_of_list_byte (snd h)).
End Toy.

(** ** The reach of [download]

    What each action of a call may concern: the model's URL, the final path
    and the partial path. *)

(** Actions before the GET request: HEAD requests to the URL, callbacks,
    look-ups of the two paths, and the removal of the partial file. *)
Definition prelude_scoped (url tmp final : string) (e : event) : Prop :=
  match e with
  | EvHead u => u = url
  | EvCallback _ _ => True
  | EvExists p | EvStat p => p = final \/ p = tmp
  | EvUnlink p => p = tmp
  | _ => False
  end.

(** Actions after the GET request: the partial file is opened and written,
    callbacks are made, and the partial file is renamed to the final one. *)
Definition transfer_event (tmp final : string) (e : event) : Prop :=
  match e with
  | EvOpen p mode => p = tmp /\ mode <> ModeRead
  | EvWrite p _ => p = tmp
  | EvCallback _ _ => True
  | EvRename a b => a = tmp /\ b = final
  | _ => False
  end.

(** Any action of a call: requests go to the URL; the final path is only
    looked up and is the target of the rename; the partial file alone is
    removed, opened (never for reading) and written. *)
Definition scoped (url tmp final : string) (e : event) : Prop :=
  match e with
  | EvHead u | EvGet u _ => u = url
  | EvCallback _ _ => True
  | EvExists p | EvStat p => p = final \/ p = tmp
  | EvUnlink p | EvWrite p _ => p = tmp
  | EvOpen p mode => p = tmp /\ mode <> ModeRead
  | EvRename a b => a = tmp /\ b = final
  end.

(** A file name that [pathlib] joins to a directory as it is: not empty,
    not [.], and without a slash.  For such a name the path is the
    directory, a separator and the name. *)
Definition plain_name (name : string) : bool :=
  negb (String.eqb name "") && negb (String.eqb name ".")
  && forallb (fun c => negb (Ascii.eqb c "/")) (list_ascii_of_string name).

(** The HEAD requests of a trace, in order. *)
Fixpoint heads (tr : list event) : list string :=
  match tr with
  | [] => []
  | EvHead u :: r => u :: heads r
  | _ :: r => heads r
  end.

(** * Properties *)

Lemma Qc_ltb_lt (a b : Qc) : Qc_ltb a b = true <-> (a < b)%Qc.
Proof.
  unfold Qc_ltb. rewrite Qclt_alt. destruct (a ?= b)%Qc; split; congruence.
Qed.

Lemma Qc_leb_le (a b : Qc) : Qc_leb a b = true <-> (a <= b)%Qc.
Proof.
  unfold Qc_leb. rewrite Qcle_alt. destruct (a ?= b)%Qc; split; congruence.
Qed.

Lemma Qc_of_Z_0 (n : Z) : Qc_of_Z n = 0%Qc <-> n = 0.
Proof.
  split.
  - intros H. apply (f_equal this) in H. cbn in H. 
    unfold inject_Z in H. injection H. auto.
  - intros ->. apply Qc_is_canon. reflexivity.
Qed.

Lemma py_truediv_ok (a b : Qc) : b <> 0%Qc -> py_truediv a b = Ok (a / b)%Qc.
Proof. intros Hb. unfold py_truediv. destruct (Qc_eq_dec b 0%Qc); congruence. Qed.

Lemma percent_of_total (downloaded total : Z) :
  percent_of downloaded total =
  Ok (if 0 <? total then (Qc_of_Z downloaded / Qc_of_Z total * Qc_of_Z 100)%Qc else 0%Qc).
Proof.
  unfold percent_of. destruct (0 <? total) eqn:E; [|reflexivity].
  rewrite py_truediv_ok; [reflexivity|]. rewrite Qc_of_Z_0. lia.
Qed.

Ltac run :=
  repeat (unfold bind, ret, raise, lift, emit, try_except, get_fs, set_fs,
            progress_callback, path_exists, stat_size, unlink, open_for,
            write, rename, assign_downloaded, set_start_time,
            set_last_downloaded_bytes, set_last_progress_time, time in *;
          cbn [fst snd fs trace ticks last_progress_time last_downloaded_bytes
               start_time counter log] in *).

Arguments partial_download : simpl never.
Arguments transfer : simpl never.
Arguments _report_progress : simpl never.
Arguments check_resume_support : simpl never.
Arguments get_remote_size : simpl never.

Lemma speed_divisor (speed : Qc) :
  (0 < speed)%Qc -> (speed * Qc_of_Z 1024 * Qc_of_Z 1024)%Qc <> 0%Qc.
Proof.
  intros Hs Hz.
  assert (Qc_of_Z 1024 <> 0%Qc) as Hk by (rewrite Qc_of_Z_0; lia).
  apply Qcmult_integral in Hz as [Hz | Hz]; [|contradiction].
  apply Qcmult_integral in Hz as [Hz | Hz]; [|contradiction].
  subst speed. by apply Qclt_not_eq in Hs.
Qed.

Section Effects.
Context (mi : ModelInfo) (dir : string) (w : world).

Lemma report_progress_run (downloaded total : Z) (speed : Qc) (s : state) :
  exists p msg,
    percent_of downloaded total = Ok p /\
    _report_progress downloaded total speed s
      = (Ok tt, log [EvCallback p msg] s).
Proof.
  unfold _report_progress. rewrite percent_of_total.
  destruct (Qc_ltb 0%Qc speed) eqn:Hs.
  - apply Qc_ltb_lt in Hs. rewrite py_truediv_ok by by apply speed_divisor.
    run. eauto.
  - run. eauto.
Qed.
End Effects.

(** ** The streaming loop *)

Section Chunk.
Context (mi : ModelInfo) (dir : string) (w : world).

Lemma on_chunk_run (n : Z) (chunk : bytes) (d : Z) (s : state) :
  exists s' evs cs,
    on_chunk mi dir w n chunk d s = (Ok (d + len chunk), s') /\
    fs s' = (match chunk with
             | [] => fs s
             | _ => <[temp_path mi dir := default [] (fs s !! temp_path mi dir) ++ chunk]> (fs s)
             end) /\
    trace s' = trace s ++ evs /\ Forall (stream_event (temp_path mi dir)) evs /\
    counter s' = counter s ++ cs /\
    cs = (match chunk with [] => [] | _ => [d + len chunk] end) /\
    last_downloaded_bytes s' = last_downloaded_bytes s /\
    start_time s' = start_time s.
Proof.
  destruct chunk as [|b chunk].
  - exists s, [], []. unfold on_chunk, len; run. rewrite Z.add_0_r, !app_nil_r.
    repeat split; auto.
  - unfold on_chunk. set (c := b :: chunk). run.
    destruct (Qc_leb _ _).
    + match goal with |- context [Qc_ltb 0%Qc ?e] => destruct (Qc_ltb 0%Qc e) eqn:He end.
      * apply Qc_ltb_lt in He. rewrite py_truediv_ok by by apply Qclt_not_eq in He.
        run.
        match goal with |- context [_report_progress ?a ?b ?c ?st] =>
          destruct (report_progress_run a b c st) as (p & msg & _ & ->) end.
        run. eexists _, _, _. split; [reflexivity|]. cbn.
        rewrite <- app_assoc. repeat split; eauto.
        repeat constructor.
      * run.
        match goal with |- context [_report_progress ?a ?b ?c ?st] =>
          destruct (report_progress_run a b c st) as (p & msg & _ & ->) end.
        run. eexists _, _, _. split; [reflexivity|]. cbn.
        rewrite <- app_assoc. repeat split; eauto.
        repeat constructor.
    + run. eexists _, _, _. split; [reflexivity|]. cbn.
      repeat split; eauto. repeat constructor.
Qed.
End Chunk.

Lemma rises_from_app (lo : Z) (l1 l2 : list Z) :
  rises_from lo l1 -> rises_from (default lo (last l1)) l2 ->
  rises_from lo (l1 ++ l2).
Proof.
  revert lo. induction l1 as [|x l1 IH]; intros lo H1 H2; [exact H2|].
  destruct H1 as [Hx H1]. split; [exact Hx|]. apply IH; [exact H1|].
  rewrite last_cons in H2. by destruct (last l1).
Qed.

Lemma len_app (a b : bytes) : len (a ++ b) = len a + len b.
Proof. unfold len. rewrite length_app. lia. Qed.

Lemma len_nonneg (a : bytes) : 0 <= len a.
Proof. unfold len. lia. Qed.

Section StreamLoop.
Context (mi : ModelInfo) (dir : string) (w : world).

Lemma stream_loop_run (n : Z) (chunks : list bytes) :
  forall (d : Z) (s : state) (x : bytes),
  fs s !! temp_path mi dir = Some x ->
  exists s' evs cs,
    stream_loop mi dir w n chunks d s = (Ok (d + len (concat chunks)), s') /\
    fs s' = <[temp_path mi dir := x ++ concat chunks]> (fs s) /\
    trace s' = trace s ++ evs /\ Forall (stream_event (temp_path mi dir)) evs /\
    counter s' = counter s ++ cs /\ rises_from d cs /\
    default d (last cs) = d + len (concat chunks) /\
    last_downloaded_bytes s' = last_downloaded_bytes s /\
    start_time s' = start_time s.
Proof.
  induction chunks as [|c rest IH]; intros d s x Hx.
  - exists s, [], []. cbn. unfold ret, len. cbn.
    rewrite !app_nil_r, Z.add_0_r, insert_id by done. done.
  - cbn [stream_loop]. unfold bind.
    destruct (on_chunk_run mi dir w n c d s)
      as (s1 & e1 & c1 & -> & Hfs1 & Htr1 & Hev1 & Hc1 & Hall1 & Hb1 & Ht1).
    assert (fs s1 = <[temp_path mi dir := x ++ c]> (fs s)) as Hfs1'.
    { rewrite Hfs1. destruct c; [|by rewrite Hx].
      by rewrite app_nil_r, insert_id. }
    assert (fs s1 !! temp_path mi dir = Some (x ++ c)) as Hx1
      by (rewrite Hfs1'; apply lookup_insert_eq).
    destruct (IH (d + len c) s1 (x ++ c) Hx1)
      as (s2 & e2 & c2 & -> & Hfs2 & Htr2 & Hev2 & Hc2 & Hr2 & Hl2 & Hb2 & Ht2).
    exists s2, (e1 ++ e2), (c1 ++ c2). cbn [concat].
    rewrite len_app, Z.add_assoc. split; [reflexivity|].
    assert (rises_from d c1 /\ default d (last c1) = d + len c) as [Hr1 Hl1].
    { pose proof (len_nonneg c). subst c1. destruct c; cbn; [|lia].
      unfold len; cbn. lia. }
    rewrite Hfs2, Hfs1', insert_insert_eq, <- app_assoc.
    rewrite Htr2, Htr1, Hc2, Hc1, <- !app_assoc, Hb2, Ht2.
    repeat split; auto.
    + apply Forall_app; split; assumption.
    + apply rises_from_app; [exact Hr1|]. by rewrite Hl1.
    + rewrite last_app, <- Hl2.
      destruct (last c2); [reflexivity|]. exact Hl1.
Qed.
End StreamLoop.

Arguments stream_loop : simpl never.

Lemma partial_size_nonneg mi dir s : 0 <= partial_size mi dir s.
Proof. unfold partial_size. destruct (fs s !! _); cbn; [apply len_nonneg|lia]. Qed.

Lemma get_remote_size_state (w : world) (url : string) (s : state) :
  snd (get_remote_size w url s) = log [EvHead url] s.
Proof.
  unfold get_remote_size. run.
  destruct (size_probe w) as [|st h]; [reflexivity|].
  destruct (h !! "content-length") as [v|]; [|reflexivity].
  destruct (py_int v); reflexivity.
Qed.

Lemma check_resume_support_run (w : world) (url : string) (s : state) :
  check_resume_support w url s = (Ok (supports_ranges w), log [EvHead url] s).
Proof.
  unfold check_resume_support, supports_ranges. run.
  destruct (range_probe w); reflexivity.
Qed.

Section Prefix.
Context (mi : ModelInfo) (dir : string) (w : world).

Lemma partial_download_run (resume : bool) (url : string) (s : state) :
  exists s' pre,
    partial_download mi dir w resume url s
      = (Ok (start_offset mi dir w resume s), s') /\
    fs s' = (if discards mi dir w resume s
             then delete (temp_path mi dir) (fs s) else fs s) /\
    trace s' = trace s ++ pre ++
               (if discards mi dir w resume s
                then [EvUnlink (temp_path mi dir)] else []) /\
    Forall (prelude_event (temp_path mi dir)) pre /\
    counter s' = counter s ++ partial_size mi dir s ::
                 (if discards mi dir w resume s then [0] else []) /\
    ticks s' = ticks s /\ last_progress_time s' = last_progress_time s.
Proof.
  unfold partial_download, start_offset, discards, partial_size. run.
  destruct (fs s !! temp_path mi dir) as [data|] eqn:Ht; cbn.
  2:{ run. eexists _, _. split; [reflexivity|]. cbn.
      rewrite app_nil_r. repeat split; eauto. repeat constructor. }
  run. rewrite Ht. cbn.
  destruct (0 <? len data) eqn:Hpos; cbn.
  2:{ run. eexists _, _. split; [reflexivity|]. cbn.
      rewrite app_nil_r, <- app_assoc. repeat split; eauto. repeat constructor. }
  destruct resume; cbn.
  - rewrite check_resume_support_run.
    destruct (supports_ranges w); cbn; run.
    + eexists _, _. split; [reflexivity|]. cbn.
      rewrite app_nil_r, <- !app_assoc. repeat split; eauto. repeat constructor.
    + eexists _, [_; _; _]. split; [reflexivity|]. cbn.
      rewrite <- !app_assoc. repeat split; eauto. repeat constructor.
  - run. eexists _, [_; _]. split; [reflexivity|]. cbn.
    rewrite <- !app_assoc. repeat split; eauto. repeat constructor.
Qed.
End Prefix.

Section Transfer.
Context (mi : ModelInfo) (dir : string) (w : world).

Let tmp := temp_path mi dir.
Let final := final_path mi dir.

Lemma transfer_run (url : string) (n k : Z) (s : state) :
  match get_reply w (range_of k) with
  | GetFailed =>
      transfer mi dir w url n k s
        = (Raise RequestException, log [EvGet url (range_of k)] s)
  | GetStream chunks ending =>
      exists s3 evs cs,
        fs s3 = <[tmp := kept mi dir k s ++ concat chunks]> (fs s) /\
        trace s3 = trace s ++ EvGet url (range_of k) ::
                     EvOpen tmp (if 0 <? k then ModeAppend else ModeWrite) :: evs /\
        Forall (stream_event tmp) evs /\
        counter s3 = counter s ++ cs /\ rises_from k cs /\
        let d := k + len (concat chunks) in
        match ending with
        | StreamBroken =>
            transfer mi dir w url n k s = (Raise RequestException, s3)
        | StreamDone =>
            exists p msg, percent_of d n = Ok p /\
            if d =? n then
              exists s4,
                transfer mi dir w url n k s = (Ok final, s4) /\
                fs s4 = <[final := kept mi dir k s ++ concat chunks]> (delete tmp (fs s3)) /\
                trace s4 = trace s3 ++ [EvCallback p msg; EvRename tmp final;
                                        EvCallback (Qc_of_Z 100) (MsgComplete final)] /\
                counter s4 = counter s3
            else
              transfer mi dir w url n k s
                = (Raise (Exc_incomplete d n), log [EvCallback p msg] s3)
        end
  end.
Proof.
  unfold transfer, range_of, kept. fold tmp final.
  destruct (get_reply w _) as [|chunks ending]; run; [reflexivity|].
  set (x := if 0 <? k then default [] (fs s !! tmp) else []).
  set (mode := if 0 <? k then ModeAppend else ModeWrite).
  set (s1 := mkState (<[tmp := x]> (fs s))
               (trace s ++ [EvGet url (if 0 <? k then Some k else None);
                            EvOpen tmp mode])
               (ticks s) (last_progress_time s) (last_downloaded_bytes s)
               (start_time s) (counter s)).
  assert (open_for tmp mode (log [EvGet url (if 0 <? k then Some k else None)] s)
          = (Ok tt, s1)) as Hopen.
  { subst s1 x mode.
    destruct (0 <? k); unfold open_for; run; by rewrite <- app_assoc. }
  unfold open_for in Hopen. run. rewrite Hopen. clear Hopen.
  assert (fs s1 !! tmp = Some x) as Hx by apply lookup_insert_eq.
  destruct (stream_loop_run mi dir w n chunks k s1 _ Hx)
    as (s3 & evs & cs & Hrun & Hfs & Htr & Hev & Hc & Hr & _ & _ & _).
  fold tmp in Hrun. rewrite Hrun.
  exists s3, evs, cs.
  assert (fs s3 = <[tmp := x ++ concat chunks]> (fs s)) as Hfs'.
  { rewrite Hfs. subst s1. cbn. by rewrite insert_insert_eq. }
  split; [exact Hfs'|].
  split. { rewrite Htr. subst s1. cbn. by rewrite <- app_assoc. }
  split; [exact Hev|]. split; [exact Hc|].
  split; [exact Hr|]. cbn zeta.
  destruct ending; [|reflexivity].
  destruct (report_progress_run (k + len (concat chunks)) n 0%Qc s3)
    as (p & msg & Hp & Hrep).
  rewrite Hrep. exists p, msg. split; [exact Hp|].
  destruct (k + len (concat chunks) =? n); cbn; [|reflexivity].
  assert (fs s3 !! tmp = Some (x ++ concat chunks)) as Hl
    by (rewrite Hfs'; apply lookup_insert_eq).
  run. rewrite Hl. unfold log; cbn.
  eexists. split; [reflexivity|]. cbn. rewrite <- !app_assoc. done.
Qed.
End Transfer.

Section Download.
Context (mi : ModelInfo) (dir : string) (w : world).

Let tmp := temp_path mi dir.
Let final := final_path mi dir.
Let url := get_download_url mi.

(** The three ways through [download]: rejected size, final file already
    complete, or the transfer started after the prelude. *)
Lemma download_run (resume : bool) (s : state) (n : Z) :
  fst (get_remote_size w url s) = Ok n ->
  if n =? 0 then
    download mi dir w resume s = (Raise Exc_remote_size_zero, log [EvHead url] s)
  else if already_complete mi dir n s then
    download mi dir w resume s
      = (Ok final,
         log [EvHead url; EvCallback 0%Qc (MsgStarting (display_name mi));
              EvExists final; EvExists final; EvStat final;
              EvCallback (Qc_of_Z 100) (MsgAlreadyDownloaded final)] s)
  else
    exists s2 pre,
      download mi dir w resume s
        = try_except (transfer mi dir w url n (start_offset mi dir w resume s))
                     handlers s2 /\
      fs s2 = (if discards mi dir w resume s then delete tmp (fs s) else fs s) /\
      trace s2 = trace s ++ EvHead url ::
                   EvCallback 0%Qc (MsgStarting (display_name mi)) :: pre ++
                   (if discards mi dir w resume s then [EvUnlink tmp] else []) /\
      Forall (prelude_event tmp) pre /\
      counter s2 = counter s ++ partial_size mi dir s ::
                   (if discards mi dir w resume s then [0] else []).
Proof.
  intros Hn.
  assert (get_remote_size w url s = (Ok n, log [EvHead url] s)) as E.
  { pose proof (get_remote_size_state w url s) as Hs.
    destruct (get_remote_size w url s) as [r s1]. cbn in *. by subst. }
  destruct (n =? 0) eqn:Hz.
  { unfold download. cbn zeta. fold url. unfold bind at 1. by rewrite E, Hz. }
  unfold already_complete. fold final.
  destruct (fs s !! final) as [data|] eqn:Hf.
  - destruct (len data =? n) eqn:Hlen.
    + unfold download. cbn zeta. fold url final. unfold bind at 1.
      rewrite E, Hz. unfold verify_download. fold final.
      repeat (progress (run; rewrite ?Hf; cbn)). rewrite Hlen. cbn.
      unfold log; cbn. by rewrite <- !app_assoc.
    + unfold download. cbn zeta. fold url final. unfold bind at 1.
      rewrite E, Hz. unfold verify_download. fold final.
      repeat (progress (run; rewrite ?Hf; cbn)). rewrite Hlen. cbn.
      match goal with |- context [partial_download mi dir w resume url ?st] =>
        destruct (partial_download_run mi dir w resume url st)
          as (s' & pre & Hrun & Hfs & Htr & Hpre & Hc & _) end.
      rewrite Hrun. cbn in *.
      eexists _, ([_; _; _; _] ++ pre). split; [reflexivity|]. cbn.
      repeat split.
      * exact Hfs.
      * rewrite Htr, <- !app_assoc. reflexivity.
      * repeat constructor. exact Hpre.
      * exact Hc.
  - unfold download. cbn zeta. fold url final. unfold bind at 1.
    rewrite E, Hz. repeat (progress (run; rewrite ?Hf; cbn)).
    match goal with |- context [partial_download mi dir w resume url ?st] =>
      destruct (partial_download_run mi dir w resume url st)
        as (s' & pre & Hrun & Hfs & Htr & Hpre & Hc & _) end.
    rewrite Hrun. cbn in *.
    eexists _, ([_] ++ pre). split; [reflexivity|]. cbn.
    repeat split.
    * exact Hfs.
    * rewrite Htr, <- !app_assoc. reflexivity.
    * repeat constructor. exact Hpre.
    * exact Hc.
Qed.
End Download.

(** ** The percentage of [_report_progress] *)

(** C9. For byte counts [downloaded] and [total] (with [total] not negative), the
    progress computation yields [downloaded / total * 100], and 0 when
    [total] is 0; the division is never done with a zero divisor, so
    [_report_progress] never raises and calls the sink once with that
    percentage. *)
Theorem percent_guarded (downloaded total : Z) (speed : Qc) (s : state) :
  0 <= total ->
  percent_of downloaded total
    = Ok (if total =? 0 then 0%Qc
          else (Qc_of_Z downloaded / Qc_of_Z total * Qc_of_Z 100)%Qc) /\
  exists msg,
    _report_progress downloaded total speed s
      = (Ok tt, log [EvCallback
                       (if total =? 0 then 0%Qc
                        else (Qc_of_Z downloaded / Qc_of_Z total * Qc_of_Z 100)%Qc)
                       msg] s).
Proof.
  intros Ht.
  assert (percent_of downloaded total
          = Ok (if total =? 0 then 0%Qc
                else (Qc_of_Z downloaded / Qc_of_Z total * Qc_of_Z 100)%Qc)) as Hp.
  { rewrite percent_of_total.
    destruct (Z.eqb_spec total 0) as [->|Hne]; [reflexivity|].
    destruct (Z.ltb_spec 0 total); [reflexivity|lia]. }
  split; [exact Hp|].
  destruct (report_progress_run downloaded total speed s) as (p & msg & Hp' & Hrun).
  rewrite Hp in Hp'. injection Hp' as <-. eauto.
Qed.

Lemma percent_guarded_witness :
  0 <= 4 /\
  percent_of 1 4 = Ok (Qc_of_Z 1 / Qc_of_Z 4 * Qc_of_Z 100)%Qc /\
  percent_of 7 0 = Ok 0%Qc.
Proof.
  split; [lia|]. split.
  - exact (proj1 (percent_guarded 1 4 0%Qc (init_state ∅) ltac:(lia))).
  - exact (proj1 (percent_guarded 7 0 0%Qc (init_state ∅) ltac:(lia))).
Defined.

(** The guard is [total > 0]: a negative total also gives 0. *)
Lemma percent_negative_total (downloaded total : Z) :
  total < 0 -> percent_of downloaded total = Ok 0%Qc.
Proof.
  intros Ht. rewrite percent_of_total.
  destruct (Z.ltb_spec 0 total); [lia|reflexivity].
Qed.

(** ** Resolving the remote size *)

(** When [get_remote_size] raises, [download] raises the same exception
    after the HEAD request alone. *)
Lemma download_size_error mi dir w resume s e :
  fst (get_remote_size w (get_download_url mi) s) = Raise e ->
  download mi dir w resume s = (Raise e, log [EvHead (get_download_url mi)] s).
Proof.
  intros He. pose proof (get_remote_size_state w (get_download_url mi) s) as Hs.
  unfold download. cbn zeta. unfold bind at 1.
  destruct (get_remote_size w (get_download_url mi) s) as [r s1].
  cbn in He, Hs. by subst.
Qed.

(** C3, counterexample.  A server answers the HEAD request without a length
    header: the size is reported as 0 and nothing is raised. *)
Lemma missing_length_is_zero :
  let w := Sample.server None true Sample.whole in
  size_probe w = HeadOk 200 (Sample.headers None true) /\
  Sample.headers None true !! "content-length" = None /\
  fst (get_remote_size w Sample.url (init_state ∅)) = Ok 0 /\
  ~ (exists e, fst (get_remote_size w Sample.url (init_state ∅)) = Raise e
               /\ RemoteMetadataError e = true).
Proof.
  assert (fst (get_remote_size (Sample.server None true Sample.whole)
                 Sample.url (init_state ∅)) = Ok 0) as E
    by (vm_compute; reflexivity).
  cbn zeta. split; [reflexivity|]. split; [reflexivity|]. split; [exact E|].
  intros (e & He & _). rewrite E in He. discriminate.
Qed.

(** A response with an error status is read like any other: a 404 that
    carries a length header resolves to that length. *)
Example error_status_is_read :
  let w := mkWorld (HeadOk 404 {[ "content-length" := "9" ]}) HeadFailed
             (fun _ => GetFailed) Sample.steady_clock in
  fst (get_remote_size w Sample.url (init_state ∅)) = Ok 9.
Proof. vm_compute. reflexivity. Qed.

(** What [int] accepts and refuses in a length header. *)
Example py_int_literals :
  py_int "12" = Some 12 /\ py_int " 1_000 " = Some 1000 /\
  py_int "+7" = Some 7 /\ py_int "-5" = Some (-5) /\ py_int "007" = Some 7 /\
  py_int (String (ascii_of_nat 160) "12") = Some 12 /\
  py_int (String (ascii_of_nat 133) "12") = Some 12 /\
  py_int (String (ascii_of_nat 28) "5") = None /\
  py_int "" = None /\ py_int "1__0" = None /\ py_int "_1" = None /\
  py_int "1_" = None /\ py_int "- 5" = None /\ py_int "12 bytes" = None /\
  py_int "1.0" = None /\ py_int "0x10" = None /\
  py_int (string_of_list_ascii (repeat "1"%char 4300)) <> None /\
  py_int (string_of_list_ascii (repeat "1"%char 4301)) = None.
Proof. vm_compute. repeat split. discriminate. Qed.

(** C3 (amended). [get_remote_size] fails with a remote-metadata error when
    [requests.head] raises, and when a response arrives whose length header
    is present and is not an integer literal for [int]; for every other
    response, whatever its status, it does not fail: it returns the integer
    the header spells, and 0 when the header is absent.  Whenever the
    resolved size is 0, [download] raises a remote-metadata error with the
    HEAD request as its only action: the file system is neither read nor
    written. *)
Theorem remote_size_errors mi dir w resume s :
  let url := get_download_url mi in
  (size_probe w = HeadFailed ->
   exists e, fst (get_remote_size w url s) = Raise e /\
             RemoteMetadataError e = true) /\
  (forall st h v, size_probe w = HeadOk st h -> h !! "content-length" = Some v ->
     py_int v = None ->
     exists e, fst (get_remote_size w url s) = Raise e /\
               RemoteMetadataError e = true) /\
  (forall st h v n, size_probe w = HeadOk st h ->
     h !! "content-length" = Some v -> py_int v = Some n ->
     fst (get_remote_size w url s) = Ok n) /\
  (forall st h, size_probe w = HeadOk st h -> h !! "content-length" = None ->
     fst (get_remote_size w url s) = Ok 0) /\
  (fst (get_remote_size w url s) = Ok 0 ->
   exists e, download mi dir w resume s = (Raise e, log [EvHead url] s) /\
             RemoteMetadataError e = true).
Proof.
  cbn zeta. repeat split.
  - intros Hp. unfold get_remote_size. run. rewrite Hp. cbn. eauto.
  - intros st h v Hp Hh Hv. unfold get_remote_size. run. rewrite Hp, Hh, Hv. cbn. eauto.
  - intros st h v n Hp Hh Hv. unfold get_remote_size. run. by rewrite Hp, Hh, Hv.
  - intros st h Hp Hh. unfold get_remote_size. run. by rewrite Hp, Hh.
  - intros Hz. exists Exc_remote_size_zero. split; [|reflexivity].
    exact (download_run mi dir w resume s 0 Hz).
Qed.

(** A server that announces a length of 0, and one whose length header
    starts with the separator U+001C, which [int] does not skip. *)
Lemma remote_size_errors_witness :
  let w := Sample.server (Some "0") true Sample.whole in
  let v := String (ascii_of_nat 28) "5" in
  let w' := Sample.server (Some v) true Sample.whole in
  fst (get_remote_size w Sample.url (init_state ∅)) = Ok 0 /\
  (exists e,
     download Sample.model Sample.dir w true (init_state ∅)
       = (Raise e, log [EvHead Sample.url] (init_state ∅)) /\
     RemoteMetadataError e = true) /\
  py_int v = None /\
  (exists e,
     fst (get_remote_size w' Sample.url (init_state ∅)) = Raise e /\
     RemoteMetadataError e = true).
Proof.
  cbn zeta. split; [vm_compute; reflexivity|]. split.
  - apply (remote_size_errors Sample.model Sample.dir
             (Sample.server (Some "0") true Sample.whole) true (init_state ∅)).
    vm_compute; reflexivity.
  - split; [vm_compute; reflexivity|].
    destruct (remote_size_errors Sample.model Sample.dir
                (Sample.server (Some (String (ascii_of_nat 28) "5")) true
                   Sample.whole) true (init_state ∅))
      as (_ & Hbad & _).
    apply (Hbad 200 (Sample.headers (Some (String (ascii_of_nat 28) "5")) true)
             (String (ascii_of_nat 28) "5")); vm_compute; reflexivity.
Defined.

(** ** The final file is already there *)

(** C1, counterexample.  With a three-byte final file and a server
    announcing three bytes, the sink is called twice, with 0 and then with 100; and with an empty final
    file and a server announcing zero bytes, [download] raises. *)
Lemma complete_file_two_callbacks :
  (let w := Sample.server (Some "3") true Sample.whole in
   let s := init_state {[ Sample.final := Sample.abc ]} in
   fst (get_remote_size w Sample.url s) = Ok 3 /\
   fs s !! Sample.final = Some Sample.abc /\ len Sample.abc = 3 /\
   fst (download Sample.model Sample.dir w true s) = Ok Sample.final /\
   callbacks (trace (snd (download Sample.model Sample.dir w true s)))
     = [(0%Qc, MsgStarting "M");
        (Qc_of_Z 100, MsgAlreadyDownloaded Sample.final)] /\
   length (callbacks (trace (snd (download Sample.model Sample.dir w true s))))
     <> 1%nat) /\
  (let w := Sample.server (Some "0") true Sample.whole in
   let s := init_state {[ Sample.final := [] ]} in
   fst (get_remote_size w Sample.url s) = Ok 0 /\
   fs s !! Sample.final = Some [] /\ len [] = 0 /\
   fst (download Sample.model Sample.dir w true s) = Raise Exc_remote_size_zero).
Proof.
  cbn zeta. repeat split; try (vm_compute; reflexivity).
  vm_compute. discriminate.
Qed.

(** C1 (amended). When the resolved remote size is not 0 and the final file exists with
    exactly that size, [download] returns the final path at once: its only
    request is the HEAD request of the size, it sends no GET request, leaves
    the file system alone, and calls the sink twice, first with 0 (start)
    and then with 100 (already downloaded). *)
Theorem download_already_complete mi dir w resume s n data :
  fst (get_remote_size w (get_download_url mi) s) = Ok n ->
  n <> 0 ->
  fs s !! final_path mi dir = Some data ->
  len data = n ->
  exists s',
    download mi dir w resume s = (Ok (final_path mi dir), s') /\
    fs s' = fs s /\
    trace s' = trace s ++
      [EvHead (get_download_url mi);
       EvCallback 0%Qc (MsgStarting (display_name mi));
       EvExists (final_path mi dir); EvExists (final_path mi dir);
       EvStat (final_path mi dir);
       EvCallback (Qc_of_Z 100) (MsgAlreadyDownloaded (final_path mi dir))].
Proof.
  intros Hn Hnz Hf Hlen.
  pose proof (download_run mi dir w resume s n Hn) as Hrun.
  destruct (Z.eqb_spec n 0) as [|_]; [contradiction|].
  unfold already_complete in Hrun. rewrite Hf in Hrun.
  apply Z.eqb_eq in Hlen. rewrite Hlen in Hrun.
  eexists. split; [exact Hrun|]. split; reflexivity.
Qed.

Lemma download_already_complete_witness :
  let w := Sample.server (Some "3") false Sample.whole in
  let s := init_state {[ Sample.final := Sample.abc ]} in
  exists s',
    download Sample.model Sample.dir w false s = (Ok Sample.final, s') /\
    fs s' = fs s /\
    gets (trace s') = [] /\
    length (callbacks (trace s')) = 2%nat.
Proof.
  cbn zeta.
  destruct (download_already_complete Sample.model Sample.dir
              (Sample.server (Some "3") false Sample.whole) false
              (init_state {[ Sample.final := Sample.abc ]}) 3 Sample.abc)
    as (s' & Hrun & Hfs & Htr).
  - vm_compute; reflexivity.
  - lia.
  - vm_compute; reflexivity.
  - reflexivity.
  - exists s'. split; [exact Hrun|]. split; [exact Hfs|].
    rewrite Htr. split; reflexivity.
Defined.

(** ** The two paths *)

Lemma string_app_self (s t : string) : s = s +:+ t -> t = "".
Proof.
  induction s as [|a s IH]; cbn; intros H; [done|].
  injection H as H. auto.
Qed.

(** The partial file and the final file are different paths. *)
Lemma temp_path_neq mi dir : final_path mi dir <> temp_path mi dir.
Proof.
  unfold final_path, temp_path. intros H.
  do 2 apply String.app_inj in H.
  apply string_app_self in H. discriminate.
Qed.

(** ** From the prelude to the end of the transfer *)

Lemma handlers_run (c : M string) (s : state) :
  try_except c handlers s =
  match c s with
  | (Ok a, s') => (Ok a, s')
  | (Raise e, s') =>
      (Raise (if is_RequestException e then Exc_download_failed e
              else Exc_download_error e), s')
  end.
Proof.
  unfold try_except, handlers. destruct (c s) as [[a|e] s']; [reflexivity|].
  by destruct (is_RequestException e).
Qed.

Lemma prelude_not_rename tmp evs :
  Forall (prelude_event tmp) evs -> Forall (fun e => is_rename e = false) evs.
Proof. intros H. eapply Forall_impl; [exact H|]. by intros []. Qed.

Lemma stream_not_rename tmp evs :
  Forall (stream_event tmp) evs -> Forall (fun e => is_rename e = false) evs.
Proof. intros H. eapply Forall_impl; [exact H|]. by intros []. Qed.

Lemma prelude_not_get tmp evs :
  Forall (prelude_event tmp) evs -> Forall (fun e => is_get e = false) evs.
Proof. intros H. eapply Forall_impl; [exact H|]. by intros []. Qed.

Lemma stream_not_get tmp evs :
  Forall (stream_event tmp) evs -> Forall (fun e => is_get e = false) evs.
Proof. intros H. eapply Forall_impl; [exact H|]. by intros []. Qed.

Lemma start_offset_discards mi dir w resume s :
  discards mi dir w resume s = true -> start_offset mi dir w resume s = 0.
Proof. unfold start_offset. by intros ->. Qed.

Lemma start_offset_keeps mi dir w resume s :
  discards mi dir w resume s = false ->
  start_offset mi dir w resume s = partial_size mi dir s.
Proof. unfold start_offset. by intros ->. Qed.

(** The bytes kept at the start of the transfer are those of the partial
    file as [download] found it. *)
Lemma kept_after_prelude mi dir w resume s s2 :
  fs s2 = (if discards mi dir w resume s
           then delete (temp_path mi dir) (fs s) else fs s) ->
  kept mi dir (start_offset mi dir w resume s) s2
  = kept mi dir (start_offset mi dir w resume s) s.
Proof.
  intros Hfs. unfold kept, start_offset in *.
  destruct (discards mi dir w resume s); [reflexivity|]. by rewrite Hfs.
Qed.

(** C4. When the stream ends with a byte count different from the resolved
    size, [download] fails with the incomplete-transfer error, no rename
    happens, the final path holds what it held before, and the partial file
    stays on disk with the bytes it started from followed by those of the
    stream. *)
Theorem incomplete_transfer mi dir w resume s n chunks :
  fst (get_remote_size w (get_download_url mi) s) = Ok n ->
  n <> 0 ->
  already_complete mi dir n s = false ->
  get_reply w (range_of (start_offset mi dir w resume s))
    = GetStream chunks StreamDone ->
  start_offset mi dir w resume s + len (concat chunks) <> n ->
  exists e s' evs,
    download mi dir w resume s = (Raise e, s') /\
    IncompleteTransferError e = true /\
    trace s' = trace s ++ evs /\
    Forall (fun ev => is_rename ev = false) evs /\
    fs s' !! final_path mi dir = fs s !! final_path mi dir /\
    fs s' !! temp_path mi dir
      = Some (kept mi dir (start_offset mi dir w resume s) s ++ concat chunks).
Proof.
  intros Hn Hnz Hc Hget Hne.
  pose proof (download_run mi dir w resume s n Hn) as Hrun.
  destruct (Z.eqb_spec n 0) as [|_]; [contradiction|]. rewrite Hc in Hrun.
  destruct Hrun as (s2 & pre & Hrun & Hfs2 & Htr2 & Hpre & _).
  set (k := start_offset mi dir w resume s) in *.
  pose proof (transfer_run mi dir w (get_download_url mi) n k s2) as Ht.
  rewrite Hget in Ht.
  destruct Ht as (s3 & evs & cs & Hfs3 & Htr3 & Hev & _ & _ & p & msg & _ & Ht).
  destruct (Z.eqb_spec (k + len (concat chunks)) n) as [|_]; [contradiction|].
  rewrite handlers_run, Ht in Hrun. cbn in Hrun.
  eexists _, _, _. split; [exact Hrun|]. split; [reflexivity|].
  cbn. rewrite Htr3, Htr2, <- !app_assoc. cbn. split; [reflexivity|].
  assert (fs s2 !! final_path mi dir = fs s !! final_path mi dir) as Hfin.
  { rewrite Hfs2. destruct (discards mi dir w resume s); [|reflexivity].
    apply lookup_delete_ne. apply not_eq_sym, temp_path_neq. }
  split; [|split].
  - repeat constructor. apply Forall_app; split; [apply Forall_app; split|].
    + by apply prelude_not_rename in Hpre.
    + destruct (discards mi dir w resume s); repeat constructor.
    + repeat constructor. apply Forall_app; split.
      * by apply stream_not_rename in Hev.
      * repeat constructor.
  - rewrite Hfs3, lookup_insert_ne by apply not_eq_sym, temp_path_neq. exact Hfin.
  - rewrite Hfs3, lookup_insert_eq. subst k.
    by rewrite (kept_after_prelude mi dir w resume s s2 Hfs2).
Qed.

Lemma incomplete_transfer_witness :
  let w := Sample.server (Some "5") true Sample.whole in
  exists e s' evs,
    download Sample.model Sample.dir w true (init_state ∅) = (Raise e, s') /\
    IncompleteTransferError e = true /\
    trace s' = trace (init_state ∅) ++ evs /\
    Forall (fun ev => is_rename ev = false) evs /\
    fs s' !! Sample.final = None /\
    fs s' !! Sample.tmp = Some Sample.abc.
Proof.
  cbn zeta.
  destruct (incomplete_transfer Sample.model Sample.dir
              (Sample.server (Some "5") true Sample.whole) true (init_state ∅)
              5 [Sample.abc])
    as (e & s' & evs & Hrun & He & Htr & Hev & Hfin & Htmp).
  - vm_compute; reflexivity.
  - lia.
  - vm_compute; reflexivity.
  - vm_compute; reflexivity.
  - vm_compute; discriminate.
  - exists e, s', evs. repeat split; assumption.
Defined.

(** ** Discarding the partial file *)

(** C5, counterexample.  With a complete final file next to a two-byte
    partial file and resume turned off, [download] returns early: the partial file is still there
    and no GET request was sent. *)
Lemma complete_file_keeps_partial :
  let w := Sample.server (Some "3") true Sample.whole in
  let s := init_state (<[Sample.final := Sample.abc]> {[ Sample.tmp := Sample.de ]}) in
  let s' := snd (download Sample.model Sample.dir w false s) in
  fs s !! Sample.tmp = Some Sample.de /\ Sample.de <> [] /\
  fs s' !! Sample.tmp = Some Sample.de /\
  ~ In (EvUnlink Sample.tmp) (trace s') /\
  gets (trace s') = [].
Proof.
  cbn zeta. split; [vm_compute; reflexivity|]. split; [discriminate|].
  split; [vm_compute; reflexivity|]. split; [|vm_compute; reflexivity].
  vm_compute. intuition discriminate.
Qed.

Lemma partial_size_some mi dir s data :
  fs s !! temp_path mi dir = Some data -> data <> [] ->
  0 < partial_size mi dir s.
Proof.
  intros Hd Hne. unfold partial_size. rewrite Hd. cbn. unfold len.
  destruct data; [done|cbn; lia].
Qed.

Lemma range_of_some (k j : Z) : range_of k = Some j -> 0 < k /\ j = k.
Proof.
  unfold range_of. destruct (Z.ltb_spec 0 k); [|discriminate].
  intros [= <-]. done.
Qed.

(** A positive start offset only comes from a kept partial file. *)
Lemma start_offset_pos mi dir w resume s :
  0 < start_offset mi dir w resume s ->
  resume = true /\ supports_ranges w = true /\
  start_offset mi dir w resume s = partial_size mi dir s.
Proof.
  unfold start_offset, discards.
  destruct (Z.ltb_spec 0 (partial_size mi dir s)); cbn; [|lia].
  destruct resume, (supports_ranges w); cbn; (lia || done).
Qed.

Lemma new_events_app s s' evs : trace s' = trace s ++ evs -> new_events s s' = evs.
Proof. intros H. unfold new_events. rewrite H. apply drop_app_length. Qed.

(** Put the trace of the goal in the form [trace s ++ evs], with [evs]
    nested to the right. *)
Ltac trace_eq :=
  unfold log; cbn [trace snd];
  repeat match goal with
         | H : trace ?x = _ |- context [trace ?x] => rewrite H
         end;
  repeat (rewrite <- ?app_assoc; cbn [app]); reflexivity.

(** Every GET request of [download] carries the range of the start
    offset. *)
Lemma download_get_range mi dir w resume s u r :
  In (EvGet u r) (new_events s (snd (download mi dir w resume s))) ->
  r = range_of (start_offset mi dir w resume s).
Proof.
  destruct (fst (get_remote_size w (get_download_url mi) s)) as [n|e] eqn:Hn.
  2:{ rewrite (download_size_error mi dir w resume s e Hn).
      erewrite new_events_app by trace_eq. cbn. intuition discriminate. }
  pose proof (download_run mi dir w resume s n Hn) as Hrun.
  destruct (n =? 0).
  { rewrite Hrun. erewrite new_events_app by trace_eq.
    cbn. intuition discriminate. }
  destruct (already_complete mi dir n s).
  { rewrite Hrun. erewrite new_events_app by trace_eq.
    cbn. intuition discriminate. }
  destruct Hrun as (s2 & pre & Hrun & _ & Htr2 & Hpre & _).
  set (k := start_offset mi dir w resume s) in *.
  pose proof (transfer_run mi dir w (get_download_url mi) n k s2) as Ht.
  rewrite Hrun, handlers_run.
  assert (forall tail, Forall (fun e => is_get e = false) tail ->
          In (EvGet u r)
            (EvHead (get_download_url mi)
             :: EvCallback 0%Qc (MsgStarting (display_name mi))
             :: pre ++ (if discards mi dir w resume s
                        then [EvUnlink (temp_path mi dir)] else [])
                ++ EvGet (get_download_url mi) (range_of k) :: tail) ->
          r = range_of k) as Hin.
  { intros tail Htail [H|[H|H]]; try discriminate.
    apply in_app_or in H as [H|H].
    - apply prelude_not_get in Hpre. rewrite Forall_forall in Hpre.
      apply list_elem_of_In, Hpre in H. discriminate.
    - apply in_app_or in H as [H|[H|H]].
      + destruct (discards mi dir w resume s); cbn in H; intuition discriminate.
      + by injection H.
      + rewrite Forall_forall in Htail.
        apply list_elem_of_In, Htail in H. discriminate. }
  destruct (get_reply w (range_of k)) as [|chunks ending].
  { rewrite Ht. erewrite new_events_app by trace_eq.
    apply Hin. constructor. }
  destruct Ht as (s3 & evs & cs & _ & Htr3 & Hev & _ & _ & Ht).
  apply stream_not_get in Hev.
  destruct ending.
  - destruct Ht as (p & msg & _ & Ht).
    destruct (_ =? n).
    + destruct Ht as (s4 & -> & _ & Htr4 & _).
      erewrite new_events_app by trace_eq. apply Hin.
      constructor; [done|]. apply Forall_app; split; [done|]. repeat constructor.
    + rewrite Ht. erewrite new_events_app by trace_eq. apply Hin.
      constructor; [done|]. apply Forall_app; split; [done|]. repeat constructor.
  - rewrite Ht. erewrite new_events_app by trace_eq. apply Hin.
    constructor; [done|]. done.
Qed.

(** C5 (amended). Once [download] has passed the checks of the remote size and of the
    final file, a non-empty partial file that cannot be resumed (resume not
    requested, or no range support) is deleted just before the GET request,
    the GET request has no [Range] header, and the transfer starts from
    nothing: the partial file is opened for writing and ends up holding the
    streamed bytes alone (under the final name after a successful rename).
    In every call, a GET request with a [Range] header implies that resume
    was requested and that the probe answered yes. *)
Theorem discard_without_ranges mi dir w resume s :
  let url := get_download_url mi in
  let tmp := temp_path mi dir in
  (forall n data,
     fst (get_remote_size w url s) = Ok n -> n <> 0 ->
     already_complete mi dir n s = false ->
     fs s !! tmp = Some data -> data <> [] ->
     resume = false \/ fst (check_resume_support w url s) = Ok false ->
     exists r s' pre post,
       download mi dir w resume s = (r, s') /\
       new_events s s' = pre ++ EvUnlink tmp :: EvGet url None :: post /\
       Forall (fun e => is_get e = false) pre /\
       Forall (fun e => is_get e = false) post /\
       match get_reply w None with
       | GetFailed => post = [] /\ fs s' !! tmp = None
       | GetStream chunks _ =>
           (exists post', post = EvOpen tmp ModeWrite :: post') /\
           match r with
           | Ok _ => fs s' !! tmp = None /\
                     fs s' !! final_path mi dir = Some (concat chunks)
           | Raise _ => fs s' !! tmp = Some (concat chunks)
           end
       end) /\
  (forall u k,
     In (EvGet u (Some k)) (new_events s (snd (download mi dir w resume s))) ->
     resume = true /\ fst (check_resume_support w url s) = Ok true /\
     k = partial_size mi dir s).
Proof.
  cbn zeta. split.
  - intros n data Hn Hnz Hc Hd Hne Hr.
    rewrite check_resume_support_run in Hr. cbn in Hr.
    assert (discards mi dir w resume s = true) as Hdis.
    { unfold discards.
      apply (partial_size_some mi dir s data Hd) in Hne.
      apply Z.ltb_lt in Hne. rewrite Hne. cbn.
      destruct Hr as [->|[= ->]]; [reflexivity|]. by rewrite andb_false_r. }
    pose proof (download_run mi dir w resume s n Hn) as Hrun.
    destruct (Z.eqb_spec n 0) as [|_]; [contradiction|]. rewrite Hc in Hrun.
    destruct Hrun as (s2 & pre & Hrun & Hfs2 & Htr2 & Hpre & _).
    rewrite (start_offset_discards _ _ _ _ _ Hdis), handlers_run in Hrun.
    rewrite Hdis in Hfs2, Htr2.
    pose proof (transfer_run mi dir w (get_download_url mi) n 0 s2) as Ht.
    change (range_of 0) with (@None Z) in Ht.
    change (kept mi dir 0 s2) with (@nil Byte.byte) in Ht. cbn [app] in Ht.
    change (0 <? 0) with false in Ht. cbn iota in Ht.
    apply prelude_not_get in Hpre.
    assert (fs s2 !! temp_path mi dir = None) as Hgone
      by (rewrite Hfs2; apply lookup_delete_eq).
    destruct (get_reply w None) as [|chunks ending].
    + rewrite Ht in Hrun. cbn in Hrun.
      eexists _, _, (_ :: _ :: pre), []. split; [exact Hrun|].
      split; [apply new_events_app; trace_eq|].
      split; [repeat constructor; exact Hpre|]. split; [constructor|].
      split; [reflexivity|]. exact Hgone.
    + destruct Ht as (s3 & evs & cs & Hfs3 & Htr3 & Hev & _ & _ & Ht).
      apply stream_not_get in Hev.
      assert (fs s3 !! temp_path mi dir = Some (concat chunks)) as Htmp
        by (rewrite Hfs3; apply lookup_insert_eq).
      destruct ending.
      * destruct Ht as (p & msg & _ & Ht).
        destruct (_ =? n).
        -- destruct Ht as (s4 & Ht & Hfs4 & Htr4 & _). rewrite Ht in Hrun.
           eexists _, _, (_ :: _ :: pre), _. split; [exact Hrun|].
           split; [apply new_events_app; trace_eq|].
           split; [repeat constructor; exact Hpre|].
           split. { constructor; [done|]. apply Forall_app; split; [done|].
                    repeat constructor. }
           split; [eauto|]. rewrite Hfs4. split.
           ++ rewrite lookup_insert_ne by apply temp_path_neq.
              apply lookup_delete_eq.
           ++ apply lookup_insert_eq.
        -- rewrite Ht in Hrun. cbn in Hrun.
           eexists _, _, (_ :: _ :: pre), _. split; [exact Hrun|].
           split; [apply new_events_app; trace_eq|].
           split; [repeat constructor; exact Hpre|].
           split. { constructor; [done|]. apply Forall_app; split; [done|].
                    repeat constructor. }
           split; [eauto|]. exact Htmp.
      * rewrite Ht in Hrun. cbn in Hrun.
        eexists _, _, (_ :: _ :: pre), _. split; [exact Hrun|].
        split; [apply new_events_app; trace_eq|].
        split; [repeat constructor; exact Hpre|].
        split. { constructor; [done|]. done. }
        split; [eauto|]. exact Htmp.
  - intros u k Hin. apply download_get_range in Hin.
    symmetry in Hin. apply range_of_some in Hin as [Hpos ->].
    apply start_offset_pos in Hpos as (-> & Hs & Hk).
    rewrite check_resume_support_run. cbn. by rewrite Hs.
Qed.

Lemma discard_without_ranges_witness :
  let w := Sample.server (Some "3") false Sample.whole in
  let s := init_state {[ Sample.tmp := Sample.de ]} in
  exists r s' pre post,
    download Sample.model Sample.dir w true s = (r, s') /\
    new_events s s' = pre ++ EvUnlink Sample.tmp :: EvGet Sample.url None :: post /\
    Forall (fun e => is_get e = false) pre /\
    Forall (fun e => is_get e = false) post.
Proof.
  cbn zeta.
  destruct (discard_without_ranges Sample.model Sample.dir
              (Sample.server (Some "3") false Sample.whole) true
              (init_state {[ Sample.tmp := Sample.de ]})) as [H _].
  destruct (H 3 Sample.de) as (r & s' & pre & post & Hrun & Hev & Hpre & Hpost & _).
  - vm_compute; reflexivity.
  - lia.
  - vm_compute; reflexivity.
  - vm_compute; reflexivity.
  - discriminate.
  - right. vm_compute; reflexivity.
  - exists r, s', pre, post. repeat split; assumption.
Defined.

(** ** The two boundary callbacks *)

(** C6. Every call of [download] that returns has called the sink with 0
    right after the HEAD request of the size, before any GET request and any
    write, and has called it with 100 as its very last action, after the
    last byte was written; this holds whatever the clock says. *)
Theorem progress_boundaries mi dir w resume s path s' :
  download mi dir w resume s = (Ok path, s') ->
  exists m0 mid m1,
    new_events s s'
      = EvHead (get_download_url mi) :: EvCallback 0%Qc m0 ::
        mid ++ [EvCallback (Qc_of_Z 100) m1].
Proof.
  intros Hok.
  destruct (fst (get_remote_size w (get_download_url mi) s)) as [n|e] eqn:Hn.
  2:{ rewrite (download_size_error mi dir w resume s e Hn) in Hok. discriminate. }
  pose proof (download_run mi dir w resume s n Hn) as Hrun.
  destruct (n =? 0); [rewrite Hrun in Hok; discriminate|].
  destruct (already_complete mi dir n s).
  { rewrite Hrun in Hok. injection Hok as <- <-.
    erewrite new_events_app by trace_eq.
    by eexists _, [_; _; _], _. }
  destruct Hrun as (s2 & pre & Hrun & _ & Htr2 & _).
  set (k := start_offset mi dir w resume s) in *.
  pose proof (transfer_run mi dir w (get_download_url mi) n k s2) as Ht.
  rewrite Hrun, handlers_run in Hok.
  destruct (get_reply w (range_of k)) as [|chunks ending].
  { rewrite Ht in Hok. discriminate. }
  destruct Ht as (s3 & evs & cs & _ & Htr3 & _ & _ & _ & Ht).
  destruct ending; [|rewrite Ht in Hok; discriminate].
  destruct Ht as (p & msg & _ & Ht).
  destruct (_ =? n); [|rewrite Ht in Hok; discriminate].
  destruct Ht as (s4 & Ht & _ & Htr4 & _). rewrite Ht in Hok.
  injection Hok as <- <-.
  erewrite new_events_app by trace_eq.
  exists (MsgStarting (display_name mi)),
    (pre ++ (if discards mi dir w resume s then [EvUnlink (temp_path mi dir)] else [])
         ++ EvGet (get_download_url mi) (range_of k)
         :: EvOpen (temp_path mi dir) (if 0 <? k then ModeAppend else ModeWrite)
         :: evs ++ [EvCallback p msg;
                    EvRename (temp_path mi dir) (final_path mi dir)]),
    (MsgComplete (final_path mi dir)).
  repeat (rewrite <- ?app_assoc; cbn [app]). reflexivity.
Qed.

Lemma progress_boundaries_witness :
  let w := Sample.server (Some "3") true Sample.whole in
  exists m0 mid m1,
    new_events (init_state ∅)
      (snd (download Sample.model Sample.dir w true (init_state ∅)))
      = EvHead Sample.url :: EvCallback 0%Qc m0 ::
        mid ++ [EvCallback (Qc_of_Z 100) m1].
Proof.
  cbn zeta.
  apply (progress_boundaries Sample.model Sample.dir
           (Sample.server (Some "3") true Sample.whole) true (init_state ∅)
           Sample.final).
  vm_compute. reflexivity.
Defined.

(** ** The byte counter *)

Lemma new_counter_app s s' cs : counter s' = counter s ++ cs -> new_counter s s' = cs.
Proof. intros H. unfold new_counter. rewrite H. apply drop_app_length. Qed.

(** C7, counterexample.  With a three-byte partial file and resume turned
    off, the counter is first 3, then 0 when the partial file is discarded, then 3 again. *)
Lemma counter_reset_on_discard :
  let w := Sample.server (Some "3") true Sample.whole in
  let s := init_state {[ Sample.tmp := Sample.abc ]} in
  let s' := snd (download Sample.model Sample.dir w false s) in
  new_counter s s' = [3; 0; 3] /\ ~ nondecreasing (new_counter s s').
Proof.
  cbn zeta.
  assert (new_counter (init_state {[ Sample.tmp := Sample.abc ]})
            (snd (download Sample.model Sample.dir
                    (Sample.server (Some "3") true Sample.whole) false
                    (init_state {[ Sample.tmp := Sample.abc ]}))) = [3; 0; 3]) as E
    by (vm_compute; reflexivity).
  split; [exact E|]. rewrite E. cbn. lia.
Qed.

(** The counter over a whole call that reaches the partial-file check. *)
Lemma counter_run mi dir w resume s n :
  fst (get_remote_size w (get_download_url mi) s) = Ok n ->
  n <> 0 ->
  already_complete mi dir n s = false ->
  exists cs,
    new_counter s (snd (download mi dir w resume s))
      = partial_size mi dir s ::
        (if discards mi dir w resume s then [0] else []) ++ cs /\
    rises_from (start_offset mi dir w resume s) cs.
Proof.
  intros Hn Hnz Hc.
  pose proof (download_run mi dir w resume s n Hn) as Hrun.
  destruct (Z.eqb_spec n 0) as [|_]; [contradiction|]. rewrite Hc in Hrun.
  destruct Hrun as (s2 & pre & Hrun & _ & _ & _ & Hc2).
  set (k := start_offset mi dir w resume s) in *.
  pose proof (transfer_run mi dir w (get_download_url mi) n k s2) as Ht.
  rewrite Hrun, handlers_run.
  destruct (get_reply w (range_of k)) as [|chunks ending].
  { rewrite Ht. exists []. split; [|exact I].
    apply new_counter_app. cbn. by rewrite Hc2, app_nil_r. }
  destruct Ht as (s3 & evs & cs & _ & _ & _ & Hc3 & Hr & Ht).
  exists cs. split; [|exact Hr]. apply new_counter_app.
  destruct ending.
  - destruct Ht as (p & msg & _ & Ht). destruct (_ =? n).
    + destruct Ht as (s4 & -> & _ & _ & Hc4). cbn.
      by rewrite Hc4, Hc3, Hc2, <- !app_assoc.
    + rewrite Ht. cbn. by rewrite Hc3, Hc2, <- !app_assoc.
  - rewrite Ht. cbn. by rewrite Hc3, Hc2, <- !app_assoc.
Qed.

(** A call that reaches the transfer sends its GET request. *)
Lemma download_sends_get mi dir w resume s n :
  fst (get_remote_size w (get_download_url mi) s) = Ok n ->
  n <> 0 ->
  already_complete mi dir n s = false ->
  In (EvGet (get_download_url mi) (range_of (start_offset mi dir w resume s)))
     (new_events s (snd (download mi dir w resume s))).
Proof.
  intros Hn Hnz Hc.
  pose proof (download_run mi dir w resume s n Hn) as Hrun.
  destruct (Z.eqb_spec n 0) as [|_]; [contradiction|]. rewrite Hc in Hrun.
  destruct Hrun as (s2 & pre & Hrun & _ & Htr2 & _).
  set (k := start_offset mi dir w resume s) in *.
  pose proof (transfer_run mi dir w (get_download_url mi) n k s2) as Ht.
  rewrite Hrun, handlers_run.
  assert (forall tail,
          In (EvGet (get_download_url mi) (range_of k))
            (EvHead (get_download_url mi)
             :: EvCallback 0%Qc (MsgStarting (display_name mi))
             :: pre ++ (if discards mi dir w resume s
                        then [EvUnlink (temp_path mi dir)] else [])
                ++ EvGet (get_download_url mi) (range_of k) :: tail)) as Hin.
  { intros tail. do 2 right. apply in_or_app. right.
    apply in_or_app. right. by left. }
  destruct (get_reply w (range_of k)) as [|chunks ending].
  { rewrite Ht. erewrite new_events_app by trace_eq. apply Hin. }
  destruct Ht as (s3 & evs & cs & _ & Htr3 & _ & _ & _ & Ht).
  destruct ending.
  - destruct Ht as (p & msg & _ & Ht).
    destruct (_ =? n).
    + destruct Ht as (s4 & -> & _ & Htr4 & _).
      erewrite new_events_app by trace_eq. apply Hin.
    + rewrite Ht. erewrite new_events_app by trace_eq. apply Hin.
  - rewrite Ht. erewrite new_events_app by trace_eq. apply Hin.
Qed.

(** C7 (amended). In a call that reaches the partial-file check: when a non-empty
    partial file is resumed, the counter starts at the size of that file,
    which is also the offset of the [Range] header, and never decreases;
    more generally the counter never decreases unless the partial file is
    discarded, in which case it goes once from the size of that file to 0
    and never decreases from there. *)
Theorem counter_history mi dir w resume s n :
  fst (get_remote_size w (get_download_url mi) s) = Ok n ->
  n <> 0 ->
  already_complete mi dir n s = false ->
  let s' := snd (download mi dir w resume s) in
  (resume = true -> supports_ranges w = true -> 0 < partial_size mi dir s ->
   exists cs,
     new_counter s s' = partial_size mi dir s :: cs /\
     nondecreasing (partial_size mi dir s :: cs) /\
     In (EvGet (get_download_url mi) (Some (partial_size mi dir s)))
        (new_events s s')) /\
  (discards mi dir w resume s = false -> nondecreasing (new_counter s s')) /\
  (discards mi dir w resume s = true ->
   exists cs,
     new_counter s s' = partial_size mi dir s :: 0 :: cs /\
     partial_size mi dir s > 0 /\
     nondecreasing (0 :: cs)).
Proof.
  intros Hn Hnz Hc. cbn zeta.
  destruct (counter_run mi dir w resume s n Hn Hnz Hc) as (cs & Hcs & Hr).
  split; [|split].
  - intros -> Hs Hpos.
    assert (discards mi dir w true s = false) as Hd
      by (unfold discards; rewrite Hs; apply andb_false_r).
    rewrite Hd in Hcs. rewrite (start_offset_keeps _ _ _ _ _ Hd) in Hr.
    exists cs. split; [exact Hcs|]. split; [exact Hr|].
    pose proof (download_sends_get mi dir w true s n Hn Hnz Hc) as Hget.
    rewrite (start_offset_keeps _ _ _ _ _ Hd) in Hget.
    unfold range_of in Hget. apply Z.ltb_lt in Hpos. by rewrite Hpos in Hget.
  - intros Hd. rewrite Hd in Hcs. rewrite (start_offset_keeps _ _ _ _ _ Hd) in Hr.
    rewrite Hcs. exact Hr.
  - intros Hd. rewrite Hd in Hcs. rewrite (start_offset_discards _ _ _ _ _ Hd) in Hr.
    exists cs. split; [exact Hcs|]. split; [|exact Hr].
    unfold discards in Hd. apply andb_true_iff in Hd as [Hd _].
    apply Z.ltb_lt in Hd. lia.
Qed.

Lemma counter_history_witness :
  let w := Sample.server (Some "5") true
             (fun _ => GetStream [Sample.de] StreamDone) in
  let s := init_state {[ Sample.tmp := Sample.abc ]} in
  let s' := snd (download Sample.model Sample.dir w true s) in
  exists cs,
    new_counter s s' = 3 :: cs /\ nondecreasing (3 :: cs) /\
    In (EvGet Sample.url (Some 3)) (new_events s s').
Proof.
  cbn zeta.
  destruct (counter_history Sample.model Sample.dir
              (Sample.server (Some "5") true
                 (fun _ => GetStream [Sample.de] StreamDone)) true
              (init_state {[ Sample.tmp := Sample.abc ]}) 5) as (H & _ & _).
  - vm_compute; reflexivity.
  - lia.
  - vm_compute; reflexivity.
  - apply H; [reflexivity | vm_compute; reflexivity | vm_compute; reflexivity].
Defined.



(** ** The catalog *)
Section CatalogFacts.
Import Catalog.

Lemma fresh_not_allocated (h : gmap loc obj) : h !! fresh (dom h) = None.
Proof. apply not_elem_of_dom. apply is_fresh. Qed.

Lemma extends_list (p : pystate) :
  extends p (snd (list_available_models p)) /\
  heap p !! fst (list_available_models p) = None.
Proof.
  unfold list_available_models, extends. cbn. split; [split|]; [done| |].
  - intros l [o Hl]. rewrite lookup_insert_ne; [done|].
    intros <-. by rewrite fresh_not_allocated in Hl.
  - apply fresh_not_allocated.
Qed.

Lemma extends_act (p p' : pystate) (d : loc) (a : action) :
  heap p !! d = None -> extends p p' -> extends p (act d p' a).
Proof.
  intros Hd [Hc Hh]. destruct a as [op|m]; cbn.
  - unfold mutate. destruct (heap p' !! d) as [[es|m]|] eqn:E; try done.
    split; [done|]. cbn. intros l Hl. rewrite lookup_insert_ne; [by apply Hh|].
    intros <-. rewrite Hd in Hl. by destruct Hl.
  - split; [done|]. cbn. intros l Hl. rewrite lookup_insert_ne; [by apply Hh|].
    intros <-. rewrite <- (Hh _ Hl) in Hl. rewrite fresh_not_allocated in Hl.
    by destruct Hl.
Qed.

Lemma extends_acts (p : pystate) (d : loc) (acts : list action) :
  heap p !! d = None ->
  forall p', extends p p' -> extends p (fold_left (act d) acts p').
Proof.
  intros Hd. induction acts as [|a acts IH]; intros p' He; [exact He|].
  cbn. apply IH. by apply extends_act.
Qed.

Lemma extends_entries (p p' : pystate) :
  catalog_ok p -> extends p p' ->
  entries_at (RECOMMENDED_MODELS p') p' = entries_at (RECOMMENDED_MODELS p) p.
Proof.
  intros [[es Hes] _] [Hc Hh]. unfold entries_at. rewrite Hc.
  rewrite (Hh (RECOMMENDED_MODELS p)); [done|]. by rewrite Hes.
Qed.

Lemma entries_at_new (h : gmap loc obj) (c d : loc) (es : gmap string loc) :
  entries_at d (mkPy (<[d := ODict es]> h) c) = es.
Proof. unfold entries_at. cbn. by rewrite lookup_insert_eq. Qed.

Lemma listed_models_alt (p : pystate) :
  catalog_ok p ->
  listed_models p
  = (fun l => heap p !! l) <$> entries_at (RECOMMENDED_MODELS p) p.
Proof.
  intros [_ Hok]. unfold listed_models, list_available_models.
  rewrite entries_at_new. cbn.
  apply map_fmap_ext. intros k l Hk. rewrite lookup_insert_ne; [done|].
  intros <-. apply Hok in Hk. rewrite fresh_not_allocated in Hk. by destruct Hk.
Qed.

Lemma extends_ok (p p' : pystate) : catalog_ok p -> extends p p' -> catalog_ok p'.
Proof.
  intros Hok He. pose proof (extends_entries p p' Hok He) as Hes.
  destruct Hok as [[es Hd] Hok]. destruct He as [Hc Hh]. split.
  - exists es. rewrite Hc, Hh; [done|]. by rewrite Hd.
  - intros k l Hk. rewrite Hes in Hk. apply Hok in Hk. by rewrite Hh.
Qed.

(** C10. [list_available_models] returns a copy of the catalog: a
    dictionary object that did not exist before the call, is not the
    catalog, and holds the catalog's keys with the catalog's values (the
    same model objects).  After the call, whatever sequence of mutations is
    applied to the returned dictionary (with model objects allocated along
    the way), [get_model_info] returns the same object with the same
    contents for every key, and [list_available_models] lists the same
    models. *)
Theorem copy_is_independent (p : pystate) (acts : list action) :
  catalog_ok p ->
  let d := fst (list_available_models p) in
  let p1 := snd (list_available_models p) in
  let p' := fold_left (act d) acts p1 in
  (heap p !! d = None /\
   heap p1 !! d = Some (ODict (entries_at (RECOMMENDED_MODELS p) p)) /\
   (forall key, entries_at d p1 !! key
                = entries_at (RECOMMENDED_MODELS p) p !! key) /\
   (forall key l, entries_at d p1 !! key = Some l ->
                  is_Some (heap p !! l) /\ heap p1 !! l = heap p !! l)) /\
  d <> RECOMMENDED_MODELS p /\
  (forall key, get_model_info key p' = get_model_info key p) /\
  (forall key, lookup_model key p' = lookup_model key p) /\
  listed_models p' = listed_models p.
Proof.
  intros Hok. cbn zeta.
  destruct (extends_list p) as [He Hd].
  pose proof (extends_acts p _ acts Hd _ He) as Hext.
  set (p' := fold_left _ _ _) in *.
  pose proof (extends_entries p p' Hok Hext) as Hes.
  assert (forall key, get_model_info key p' = get_model_info key p) as Hget
    by (intros key; unfold get_model_info; by rewrite Hes).
  split; [|split; [|split; [exact Hget|split]]].
  - assert (entries_at (fst (list_available_models p))
              (snd (list_available_models p))
            = entries_at (RECOMMENDED_MODELS p) p) as Hcopy
      by (unfold list_available_models; cbn [fst snd]; apply entries_at_new).
    split; [exact Hd|]. split; [|split].
    + unfold list_available_models. cbn. by rewrite lookup_insert_eq.
    + intros key. by rewrite Hcopy.
    + intros key l Hl. rewrite Hcopy in Hl. destruct Hok as [_ Hok].
      pose proof (Hok key l Hl) as Hal. split; [exact Hal|].
      by apply He.
  - intros Heq. destruct Hok as [[es Hc] _]. rewrite <- Heq in Hc. congruence.
  - intros key. unfold lookup_model. rewrite Hget.
    destruct (get_model_info key p) as [l|e] eqn:E; [|done].
    f_equal. apply Hext. apply Hok with key.
    unfold get_model_info in E. by destruct (_ !! key) as [l'|]; simplify_eq.
  - rewrite !listed_models_alt by eauto using extends_ok. rewrite Hes.
    apply map_fmap_ext. intros k l Hk. apply Hext. by apply Hok with k.
Qed.

Lemma initial_ok : catalog_ok initial.
Proof.
  split; [eexists; reflexivity|]. intros k l Hk.
  change (entries_at (RECOMMENDED_MODELS initial) initial)
    with (<["floppa-12b-q4" := 1%nat]>
            (<["floppa-12b-q5" := 2%nat]>
               (<["floppa-12b-q6" := 3%nat]> (∅ : gmap string loc)))) in Hk.
  rewrite !lookup_insert in Hk.
  repeat case_decide; simplify_eq; eexists; reflexivity.
Qed.

Lemma copy_is_independent_witness :
  let d := fst (list_available_models initial) in
  let p1 := snd (list_available_models initial) in
  let acts := [Mutate (DelItem "floppa-12b-q4"); Allocate Sample.model;
               Mutate (SetItem "floppa-12b-q5" 5%nat); Mutate Clear] in
  let p' := fold_left (act d) acts p1 in
  catalog_ok initial /\
  heap initial !! d = None /\
  entries_at d p1 !! "floppa-12b-q4"
    = entries_at (RECOMMENDED_MODELS initial) initial !! "floppa-12b-q4" /\
  entries_at d p1 !! "floppa-12b-q4" = Some 1%nat /\
  lookup_model "floppa-12b-q4" p' = lookup_model "floppa-12b-q4" initial /\
  lookup_model "floppa-12b-q5" p' = lookup_model "floppa-12b-q5" initial /\
  listed_models p' = listed_models initial.
Proof.
  cbn zeta.
  destruct (copy_is_independent initial
              [Mutate (DelItem "floppa-12b-q4"); Allocate Sample.model;
               Mutate (SetItem "floppa-12b-q5" 5%nat); Mutate Clear] initial_ok)
    as ((Hnew & _ & Hsame & _) & _ & _ & Hlookup & Hlisted).
  split; [exact initial_ok|]. split; [exact Hnew|]. split; [apply Hsame|].
  split; [vm_compute; reflexivity|].
  split; [apply Hlookup|]. split; [apply Hlookup|].
  exact Hlisted.
Defined.

(** The copy is shallow: the model objects are shared, so assigning to an
    attribute of a model reached through the returned dictionary is seen by
    [get_model_info]. *)
Lemma shallow_copy_shares_models :
  let '(d, p1) := list_available_models initial in
  entries_at d p1 !! "floppa-12b-q4" = Some 1%nat /\
  get_model_info "floppa-12b-q4" initial = Ok 1%nat /\
  lookup_model "floppa-12b-q4" (set_filename 1%nat "other.gguf" p1)
    <> lookup_model "floppa-12b-q4" initial.
Proof.
  vm_compute. repeat split. intros H. discriminate H.
Qed.

End CatalogFacts.



Section ChecksumProps.
Context {hasher : Type}.
Context (hashlib_new : string -> option hasher).
Context (update : hasher -> bytes -> hasher).
Context (hexdigest : hasher -> result string).
Context (mi : ModelInfo) (dir : string).

Lemma calculate_checksum_run (algorithm : string) (s : state) :
  calculate_checksum hashlib_new update hexdigest mi dir algorithm s =
  match fs s !! final_path mi dir with
  | None => (Raise Exc_file_not_downloaded, log [EvExists (final_path mi dir)] s)
  | Some data =>
      match hashlib_new algorithm with
      | None => (Raise (ValueError_hash algorithm),
                 log [EvExists (final_path mi dir)] s)
      | Some h =>
          (hexdigest (hash_chunks update h data),
           log [EvOpen (final_path mi dir) ModeRead]
             (log [EvExists (final_path mi dir)] s))
      end
  end.
Proof.
  unfold calculate_checksum. run.
  destruct (fs s !! final_path mi dir) as [data|] eqn:Hf; cbn; [|reflexivity].
  destruct (hashlib_new algorithm) as [h|]; [|reflexivity].
  run. by rewrite Hf.
Qed.

(** C8. The checksum depends only on the algorithm and on the contents of
    the final file: two calls on states in which the final file is the same
    give the same result, in particular the same hex digest; a call leaves
    the file system as it was; and when the final file does not exist the
    call fails, whatever the algorithm. *)
Theorem checksum_deterministic (algorithm : string) (s1 s2 : state) :
  fs s1 !! final_path mi dir = fs s2 !! final_path mi dir ->
  fst (calculate_checksum hashlib_new update hexdigest mi dir algorithm s1) = fst (calculate_checksum hashlib_new update hexdigest mi dir algorithm s2) /\
  fs (snd (calculate_checksum hashlib_new update hexdigest mi dir algorithm s1)) = fs s1 /\
  (fs s1 !! final_path mi dir = None ->
   fst (calculate_checksum hashlib_new update hexdigest mi dir algorithm s1) = Raise Exc_file_not_downloaded).
Proof.
  intros Hsame. rewrite !calculate_checksum_run, <- Hsame.
  destruct (fs s1 !! final_path mi dir) as [data|].
  - destruct (hashlib_new algorithm); cbn; by repeat split.
  - by repeat split.
Qed.

End ChecksumProps.

Lemma checksum_deterministic_witness :
  let s1 := init_state {[ Sample.final := Sample.abc ]} in
  let s2 := snd (calculate_checksum Toy.new Toy.update Toy.hexdigest
                   Sample.model Sample.dir "md5" s1) in
  fst (calculate_checksum Toy.new Toy.update Toy.hexdigest
         Sample.model Sample.dir "md5" s1)
  = fst (calculate_checksum Toy.new Toy.update Toy.hexdigest
           Sample.model Sample.dir "md5" s2).
Proof.
  cbn zeta.
  apply (checksum_deterministic Toy.new Toy.update Toy.hexdigest
           Sample.model Sample.dir "md5").
  vm_compute; reflexivity.
Defined.

(** On the sample file the loop feeds the three bytes in one chunk. *)
Example checksum_abc :
  fst (calculate_checksum Toy.new Toy.update Toy.hexdigest
         Sample.model Sample.dir "md5"
         (init_state {[ Sample.final := Sample.abc ]})) = Ok "abc"%string.
Proof. vm_compute. reflexivity. Qed.



(** ** The reported speed *)

(** Whenever the loop reports a speed, it is the number of bytes received
    since the transfer started over the time since it started, in bytes per
    second: [_last_downloaded_bytes] still holds the start offset. *)
Lemma on_chunk_speed mi dir w n chunk d s started :
  chunk <> [] ->
  start_time s = Some started ->
  let now := clock w (ticks s) in
  let received := d + len chunk - last_downloaded_bytes s in
  (1 <= now - last_progress_time s)%Qc ->
  (0 < now - started)%Qc ->
  0 < received ->
  reported_speeds (new_events s (snd (on_chunk mi dir w n chunk d s)))
  = [(Qc_of_Z received / (now - started))%Qc].
Proof.
  intros Hne Hst now received Hdue Hpos Hrec.
  destruct chunk as [|b chunk]; [done|]. unfold on_chunk.
  set (c := b :: chunk) in *. run. fold now.
  apply Qc_leb_le in Hdue. rewrite Hdue. run. rewrite Hst. cbn [default from_option id].
  pose proof Hpos as Hpos'. apply Qc_ltb_lt in Hpos'. rewrite Hpos'.
  rewrite py_truediv_ok by (intros E; rewrite E in Hpos; by apply Qclt_not_eq in Hpos).
  run. fold received.
  assert (Qc_ltb 0%Qc (Qc_of_Z received / (now - started))%Qc = true) as Hsp.
  { apply Qc_ltb_lt. unfold Qcdiv. apply Qcmult_pos_pos.
    - apply (proj1 (Z2Qc_inj_lt 0 received)) in Hrec.
      by rewrite Z2Qc_inj_0 in Hrec.
    - by apply Qcinv_pos. }
  unfold _report_progress. rewrite percent_of_total, Hsp.
  rewrite py_truediv_ok by (apply speed_divisor; by apply Qc_ltb_lt).
  run. erewrite new_events_app by (unfold log; cbn; rewrite <- !app_assoc; reflexivity).
  reflexivity.
Qed.

(** C2 (evaluation). A body of five bytes arrives as a chunk of three bytes
    one second after the start and a chunk of two bytes one second later.
    [download] reports the speeds 3 and 5/2: all the bytes of the transfer
    over all the time since its start, in bytes per second, which
    [_report_progress] then prints as MB/s.  The rolling one-second samples
    of the specification are 3 and 2 bytes per second, that is 3/1048576 and
    2/1048576 MiB/s. *)
Theorem speed_is_average_in_bytes :
  let w := Sample.server (Some "5") true
             (fun _ => GetStream [Sample.abc; Sample.de] StreamDone) in
  let s' := snd (download Sample.model Sample.dir w true (init_state ∅)) in
  map this (reported_speeds (trace s')) = [3; 5 # 2]%Q /\
  map this [spec_speed 3 1%Qc; spec_speed 2 1%Qc] = [3 # 1048576; 1 # 524288]%Q /\
  map this (reported_speeds (trace s'))
    <> map this [spec_speed 3 1%Qc; spec_speed 2 1%Qc].
Proof.
  cbn zeta. split; [vm_compute; reflexivity|]. split; [vm_compute; reflexivity|].
  vm_compute. discriminate.
Qed.

(** * Further properties *)

Lemma prelude_scoped_scoped url tmp final evs :
  Forall (prelude_scoped url tmp final) evs -> Forall (scoped url tmp final) evs.
Proof. intros H. eapply Forall_impl; [exact H|]. intros []; cbn; intuition. Qed.

Lemma transfer_event_scoped url tmp final evs :
  Forall (transfer_event tmp final) evs -> Forall (scoped url tmp final) evs.
Proof. intros H. eapply Forall_impl; [exact H|]. intros []; cbn; intuition. Qed.

Lemma stream_event_transfer tmp final evs :
  Forall (stream_event tmp) evs -> Forall (transfer_event tmp final) evs.
Proof. intros H. eapply Forall_impl; [exact H|]. intros []; cbn; intuition. Qed.

Lemma prelude_scoped_no_get url tmp final evs :
  Forall (prelude_scoped url tmp final) evs -> gets evs = [].
Proof.
  induction 1 as [|e evs He _ IH]; [reflexivity|]. by destruct e.
Qed.

Lemma transfer_event_no_get tmp final evs :
  Forall (transfer_event tmp final) evs -> gets evs = [].
Proof.
  induction 1 as [|e evs He _ IH]; [reflexivity|]. by destruct e.
Qed.

Lemma gets_app a b : gets (a ++ b) = gets a ++ gets b.
Proof.
  induction a as [|e a IH]; [reflexivity|]. destruct e; cbn; by rewrite ?IH.
Qed.

Ltac scope :=
  repeat (apply List.Forall_cons; [cbn; auto|]); try apply List.Forall_nil.

Section Shape.
Context (mi : ModelInfo) (dir : string) (w : world).

Let tmp := temp_path mi dir.
Let final := final_path mi dir.
Let url := get_download_url mi.

(** The actions of lines 194-203. *)
Lemma partial_download_scope (resume : bool) (s : state) :
  exists pre,
    trace (snd (partial_download mi dir w resume url s)) = trace s ++ pre /\
    Forall (prelude_scoped url tmp final) pre /\
    heads pre = (if (0 <? partial_size mi dir s) && resume then [url] else []).
Proof.
  unfold partial_size. fold tmp.
  unfold partial_download. run. fold tmp.
  destruct (fs s !! tmp) as [data|] eqn:Ht; cbn.
  2:{ run. eexists. split; [reflexivity|]. split; [scope|reflexivity]. }
  run. rewrite Ht. cbn.
  destruct (0 <? len data) eqn:Hpos; cbn.
  2:{ run. eexists. rewrite <- app_assoc. split; [reflexivity|].
      split; [scope|reflexivity]. }
  destruct resume; cbn.
  - rewrite check_resume_support_run.
    destruct (supports_ranges w); cbn; run.
    + eexists. rewrite <- !app_assoc. split; [reflexivity|].
      split; [scope|reflexivity].
    + eexists. rewrite <- !app_assoc. split; [reflexivity|].
      split; [scope|reflexivity].
  - run. eexists. rewrite <- !app_assoc. split; [reflexivity|].
    split; [scope|reflexivity].
Qed.

(** [download] up to the start of the transfer, with the reach of its
    actions. *)
Lemma download_prelude (resume : bool) (s : state) (n : Z) :
  fst (get_remote_size w url s) = Ok n ->
  n <> 0 ->
  already_complete mi dir n s = false ->
  exists s2 pre,
    download mi dir w resume s
      = try_except (transfer mi dir w url n (start_offset mi dir w resume s))
                   handlers s2 /\
    fs s2 = (if discards mi dir w resume s then delete tmp (fs s) else fs s) /\
    trace s2 = trace s ++ EvHead url :: pre /\
    Forall (prelude_scoped url tmp final) pre /\
    heads pre = (if (0 <? partial_size mi dir s) && resume then [url] else []).
Proof.
  intros Hn Hnz Hc.
  assert (get_remote_size w url s = (Ok n, log [EvHead url] s)) as E.
  { pose proof (get_remote_size_state w url s) as Hs.
    destruct (get_remote_size w url s) as [r s1]. cbn in *. by subst. }
  apply Z.eqb_neq in Hnz.
  unfold already_complete in Hc. fold final in Hc.
  unfold download. cbn zeta. fold url final tmp. unfold bind at 1.
  rewrite E, Hnz.
  destruct (fs s !! final) as [data|] eqn:Hf.
  - unfold verify_download. fold final.
    repeat (progress (run; rewrite ?Hf; cbn)). rewrite Hc. cbn.
    match goal with |- context [partial_download mi dir w resume url ?st] =>
      destruct (partial_download_run mi dir w resume url st)
        as (s' & pre0 & Hrun & Hfs & _);
      destruct (partial_download_scope resume st) as (pre & Htr & Hpre & Hheads) end.
    rewrite Hrun in Htr |- *. cbn in *.
    eexists _, _. split; [reflexivity|]. cbn.
    split; [exact Hfs|]. split; [|split].
    + rewrite Htr, <- !app_assoc. cbn. reflexivity.
    + scope. exact Hpre.
    + exact Hheads.
  - repeat (progress (run; rewrite ?Hf; cbn)).
    match goal with |- context [partial_download mi dir w resume url ?st] =>
      destruct (partial_download_run mi dir w resume url st)
        as (s' & pre0 & Hrun & Hfs & _);
      destruct (partial_download_scope resume st) as (pre & Htr & Hpre & Hheads) end.
    rewrite Hrun in Htr |- *. cbn in *.
    eexists _, _. split; [reflexivity|]. cbn.
    split; [exact Hfs|]. split; [|split].
    + rewrite Htr, <- !app_assoc. cbn. reflexivity.
    + scope. exact Hpre.
    + exact Hheads.
Qed.


(** The [try] block with its handlers: the four ways it can end. *)
Lemma attempt_run (n k : Z) (s2 : state) :
  exists r s' rest,
    try_except (transfer mi dir w url n k) handlers s2 = (r, s') /\
    trace s' = trace s2 ++ EvGet url (range_of k) :: rest /\
    Forall (transfer_event tmp final) rest /\
    match get_reply w (range_of k) with
    | GetFailed =>
        r = Raise (Exc_download_failed RequestException) /\
        rest = [] /\ fs s' = fs s2
    | GetStream chunks ending =>
        let data := kept mi dir k s2 ++ concat chunks in
        match ending with
        | StreamBroken =>
            r = Raise (Exc_download_failed RequestException) /\
            fs s' = <[tmp := data]> (fs s2) /\
            Forall (fun e => is_rename e = false) rest
        | StreamDone =>
            if k + len (concat chunks) =? n then
              r = Ok final /\
              fs s' = <[final := data]> (delete tmp (fs s2)) /\
              exists mid p m1 m2,
                percent_of n n = Ok p /\
                rest = mid ++ [EvCallback p m1; EvRename tmp final;
                               EvCallback (Qc_of_Z 100) m2]
            else
              r = Raise (Exc_download_error
                           (Exc_incomplete (k + len (concat chunks)) n)) /\
              fs s' = <[tmp := data]> (fs s2) /\
              Forall (fun e => is_rename e = false) rest
        end
    end.
Proof.
  pose proof (transfer_run mi dir w url n k s2) as Ht. rewrite handlers_run.
  fold tmp final in Ht.
  destruct (get_reply w (range_of k)) as [|chunks ending].
  { rewrite Ht. eexists _, _, []. split; [reflexivity|].
    split; [reflexivity|]. split; [constructor|]. done. }
  destruct Ht as (s3 & evs & cs & Hfs3 & Htr3 & Hev & _ & _ & Ht).
  pose proof (stream_not_rename tmp evs Hev) as Hnr.
  apply (stream_event_transfer tmp final) in Hev.
  assert (transfer_event tmp final
            (EvOpen tmp (if 0 <? k then ModeAppend else ModeWrite))) as Hopen
    by (split; [done|]; by destruct (0 <? k)).
  cbn zeta in *. destruct ending.
  - destruct Ht as (p & msg & Hp & Ht).
    destruct (Z.eqb_spec (k + len (concat chunks)) n) as [Heq|Hne].
    + destruct Ht as (s4 & Ht & Hfs4 & Htr4 & _). rewrite Ht.
      eexists _, _, _. split; [reflexivity|].
      split; [rewrite Htr4, Htr3, <- app_assoc; reflexivity|].
      split. { constructor; [exact Hopen|]. apply Forall_app; split; [exact Hev|].
               scope. }
      split; [reflexivity|].
      split; [by rewrite Hfs4, Hfs3, delete_insert_eq|].
      exists (EvOpen tmp (if 0 <? k then ModeAppend else ModeWrite) :: evs),
        p, msg, (MsgComplete final).
      rewrite Heq in Hp. split; [exact Hp|]. reflexivity.
    + rewrite Ht. cbn.
      eexists _, _, _. split; [reflexivity|].
      split; [unfold log; cbn; rewrite Htr3, <- app_assoc; reflexivity|].
      split. { constructor; [exact Hopen|]. apply Forall_app; split; [exact Hev|].
               scope. }
      split; [reflexivity|]. split; [exact Hfs3|].
      constructor; [done|]. apply Forall_app; split; [exact Hnr|]. by constructor.
  - rewrite Ht. cbn. eexists _, _, _. split; [reflexivity|].
    split; [exact Htr3|]. split; [by constructor|]. split; [reflexivity|].
    split; [exact Hfs3|]. by constructor.
Qed.

(** Every call of [download], by cases on what the server answers. *)
Lemma download_outcome (resume : bool) (s : state) :
  exists r s',
    download mi dir w resume s = (r, s') /\
    match fst (get_remote_size w url s) with
    | Raise e => r = Raise e /\ s' = log [EvHead url] s
    | Ok n =>
        if n =? 0 then r = Raise Exc_remote_size_zero /\ s' = log [EvHead url] s
        else if already_complete mi dir n s then
          r = Ok final /\
          s' = log [EvHead url; EvCallback 0%Qc (MsgStarting (display_name mi));
                    EvExists final; EvExists final; EvStat final;
                    EvCallback (Qc_of_Z 100) (MsgAlreadyDownloaded final)] s
        else
          let k := start_offset mi dir w resume s in
          let base := if discards mi dir w resume s
                      then delete tmp (fs s) else fs s in
          exists pre rest,
            new_events s s' = EvHead url :: pre ++ EvGet url (range_of k) :: rest /\
            Forall (prelude_scoped url tmp final) pre /\
            Forall (transfer_event tmp final) rest /\
            match get_reply w (range_of k) with
            | GetFailed =>
                r = Raise (Exc_download_failed RequestException) /\
                rest = [] /\ fs s' = base
            | GetStream chunks ending =>
                let data := kept mi dir k s ++ concat chunks in
                match ending with
                | StreamBroken =>
                    r = Raise (Exc_download_failed RequestException) /\
                    fs s' = <[tmp := data]> base /\
                    Forall (fun e => is_rename e = false) rest
                | StreamDone =>
                    if k + len (concat chunks) =? n then
                      r = Ok final /\
                      fs s' = <[final := data]> (delete tmp base) /\
                      exists mid p m1 m2,
                        percent_of n n = Ok p /\
                        rest = mid ++ [EvCallback p m1; EvRename tmp final;
                                       EvCallback (Qc_of_Z 100) m2]
                    else
                      r = Raise (Exc_download_error
                                   (Exc_incomplete (k + len (concat chunks)) n)) /\
                      fs s' = <[tmp := data]> base /\
                      Forall (fun e => is_rename e = false) rest
                end
            end
    end.
Proof.
  destruct (fst (get_remote_size w url s)) as [n|e] eqn:Hn.
  2:{ eexists _, _. split; [apply (download_size_error mi dir w resume s e Hn)|].
      done. }
  pose proof (download_run mi dir w resume s n Hn) as Hrun. fold url final in Hrun.
  destruct (Z.eqb_spec n 0) as [Hz|Hnz]; [by eexists _, _|].
  destruct (already_complete mi dir n s) eqn:Hc; [by eexists _, _|].
  clear Hrun.
  destruct (download_prelude resume s n Hn Hnz Hc)
    as (s2 & pre & Hrun & Hfs2 & Htr2 & Hpre & _).
  cbn zeta. set (k := start_offset mi dir w resume s) in *.
  destruct (attempt_run n k s2) as (r & s' & rest & Ht & Htr & Hrest & Hcase).
  exists r, s'. split; [by rewrite Hrun|]. exists pre, rest.
  split. { apply new_events_app. rewrite Htr, Htr2, <- app_assoc. reflexivity. }
  split; [exact Hpre|]. split; [exact Hrest|].
  unfold k in Hcase at 2 3 4.
  rewrite (kept_after_prelude mi dir w resume s s2 Hfs2) in Hcase.
  fold k in Hcase. rewrite Hfs2 in Hcase. exact Hcase.
Qed.
End Shape.

(** ** What a successful call leaves behind *)

Lemma get_remote_size_any_state (w : world) (url : string) (s s0 : state) :
  fst (get_remote_size w url s) = fst (get_remote_size w url s0).
Proof.
  unfold get_remote_size. run.
  destruct (size_probe w) as [|st h]; [reflexivity|].
  destruct (h !! "content-length") as [v|]; [|reflexivity].
  destruct (py_int v); reflexivity.
Qed.

Lemma start_offset_nonneg mi dir w resume s : 0 <= start_offset mi dir w resume s.
Proof.
  unfold start_offset. destruct (discards mi dir w resume s); [lia|].
  apply partial_size_nonneg.
Qed.

(** The bytes kept for a resumed transfer are as many as the offset. *)
Lemma len_kept mi dir w resume s :
  len (kept mi dir (start_offset mi dir w resume s) s)
  = start_offset mi dir w resume s.
Proof.
  pose proof (start_offset_nonneg mi dir w resume s) as Hk.
  unfold kept. destruct (Z.ltb_spec 0 (start_offset mi dir w resume s)) as [Hpos|Hle].
  - apply start_offset_pos in Hpos as (_ & _ & ->). unfold partial_size.
    by destruct (fs s !! temp_path mi dir).
  - cbn. unfold len. cbn. lia.
Qed.

Lemma verify_download_run mi dir (expected : option Z) (s : state) :
  exists s',
    verify_download mi dir expected s
    = (Ok match fs s !! final_path mi dir with
          | None => false
          | Some data =>
              match expected with
              | Some n => len data =? n
              | None => 0 <? len data
              end
          end, s') /\
    fs s' = fs s.
Proof.
  unfold verify_download. run.
  destruct (fs s !! final_path mi dir) as [data|] eqn:Hf; cbn.
  - run. rewrite Hf. cbn. destruct expected; eexists; split; reflexivity.
  - eexists; split; reflexivity.
Qed.

(** Whenever [download] returns, the final file has the resolved size. *)
Lemma returned_file mi dir w resume s path s' :
  download mi dir w resume s = (Ok path, s') ->
  exists n data,
    fst (get_remote_size w (get_download_url mi) s) = Ok n /\
    0 < n /\
    path = final_path mi dir /\
    fs s' !! final_path mi dir = Some data /\
    len data = n.
Proof.
  intros Hok.
  destruct (download_outcome mi dir w resume s) as (r & s1 & Hrun & Hcase).
  rewrite Hrun in Hok. injection Hok as -> ->.
  destruct (fst (get_remote_size w (get_download_url mi) s)) as [n|e];
    [|by destruct Hcase].
  destruct (Z.eqb_spec n 0) as [Hz|Hnz]; [by destruct Hcase|].
  destruct (already_complete mi dir n s) eqn:Hc.
  - destruct Hcase as [[= ->] ->]. unfold already_complete in Hc.
    destruct (fs s !! final_path mi dir) as [data|] eqn:Hf; [|done].
    apply Z.eqb_eq in Hc. pose proof (len_nonneg data).
    exists n, data. repeat split; [lia|exact Hf|exact Hc].
  - cbn zeta in Hcase. destruct Hcase as (pre & rest & _ & _ & _ & Hcase).
    destruct (get_reply w _) as [|chunks ending]; [by destruct Hcase|].
    destruct ending; [|by destruct Hcase].
    destruct (Z.eqb_spec (start_offset mi dir w resume s + len (concat chunks)) n)
      as [Heq|]; [|by destruct Hcase].
    destruct Hcase as ([= ->] & Hfs & _).
    pose proof (start_offset_nonneg mi dir w resume s).
    pose proof (len_nonneg (concat chunks)).
    exists n, (kept mi dir (start_offset mi dir w resume s) s ++ concat chunks).
    repeat split; [lia|by rewrite Hfs, lookup_insert_eq|].
    by rewrite len_app, len_kept.
Qed.

(** X1. Whenever [download] returns, it returns the final path, the resolved
    size is positive, the final file exists with exactly that many bytes,
    and [verify_download] accepts it, with or without the expected size. *)
Theorem download_postcondition mi dir w resume s path s' :
  download mi dir w resume s = (Ok path, s') ->
  exists n data,
    fst (get_remote_size w (get_download_url mi) s) = Ok n /\
    0 < n /\
    path = final_path mi dir /\
    fs s' !! final_path mi dir = Some data /\
    len data = n /\
    fst (verify_download mi dir (Some n) s') = Ok true /\
    fst (verify_download mi dir None s') = Ok true.
Proof.
  intros Hok.
  destruct (returned_file mi dir w resume s path s' Hok)
    as (n & data & Hn & Hpos & Hpath & Hd & Hlen).
  exists n, data. do 5 (split; [assumption|]).
  destruct (verify_download_run mi dir (Some n) s') as (? & -> & _).
  destruct (verify_download_run mi dir None s') as (? & -> & _).
  rewrite Hd. cbn. split; f_equal; [by apply Z.eqb_eq | apply Z.ltb_lt; lia].
Qed.

Lemma download_postcondition_witness :
  let w := Sample.server (Some "3") true Sample.whole in
  exists n data,
    fst (get_remote_size w Sample.url (init_state ∅)) = Ok n /\ 0 < n /\
    fs (snd (download Sample.model Sample.dir w true (init_state ∅))) !! Sample.final
      = Some data /\
    len data = n.
Proof.
  cbn zeta.
  destruct (download_postcondition Sample.model Sample.dir
              (Sample.server (Some "3") true Sample.whole) true (init_state ∅)
              Sample.final
              (snd (download Sample.model Sample.dir
                      (Sample.server (Some "3") true Sample.whole) true
                      (init_state ∅))))
    as (n & data & Hn & Hpos & _ & Hd & Hlen & _).
  - vm_compute. reflexivity.
  - exists n, data. repeat split; assumption.
Defined.

(** X2. Calling [download] again after it has returned (same announced
    size, resume on or off) returns the same path at once: no GET request,
    and the file system is left as the first call left it. *)
Theorem download_twice mi dir w resume resume' s path s' :
  download mi dir w resume s = (Ok path, s') ->
  exists s'',
    download mi dir w resume' s' = (Ok path, s'') /\
    fs s'' = fs s' /\
    gets (new_events s' s'') = [].
Proof.
  intros Hok.
  destruct (returned_file mi dir w resume s path s' Hok)
    as (n & data & Hn & Hpos & -> & Hd & Hlen).
  rewrite (get_remote_size_any_state w _ s s') in Hn.
  pose proof (download_run mi dir w resume' s' n Hn) as Hrun.
  destruct (Z.eqb_spec n 0) as [|_]; [lia|].
  unfold already_complete in Hrun. rewrite Hd in Hrun.
  apply Z.eqb_eq in Hlen. rewrite Hlen in Hrun.
  eexists. split; [exact Hrun|]. split; [reflexivity|].
  erewrite new_events_app by trace_eq. reflexivity.
Qed.

Lemma download_twice_witness :
  let w := Sample.server (Some "3") true Sample.whole in
  let s' := snd (download Sample.model Sample.dir w true (init_state ∅)) in
  exists s'',
    download Sample.model Sample.dir w false s' = (Ok Sample.final, s'') /\
    fs s'' = fs s' /\ gets (new_events s' s'') = [].
Proof.
  cbn zeta.
  apply (download_twice Sample.model Sample.dir
           (Sample.server (Some "3") true Sample.whole) true false (init_state ∅)).
  vm_compute. reflexivity.
Defined.




(** ** Resuming *)





(** ** Failed transfers *)

(** The run of a call whose connection breaks, at the GET request or in the
    middle of the stream. *)
Lemma failed_run mi dir w resume s n :
  fst (get_remote_size w (get_download_url mi) s) = Ok n ->
  n <> 0 ->
  already_complete mi dir n s = false ->
  let k := start_offset mi dir w resume s in
  let base := if discards mi dir w resume s
              then delete (temp_path mi dir) (fs s) else fs s in
  exists s' pre rest,
    snd (download mi dir w resume s) = s' /\
    new_events s s' = EvHead (get_download_url mi) :: pre ++
                      EvGet (get_download_url mi) (range_of k) :: rest /\
    Forall (prelude_scoped (get_download_url mi) (temp_path mi dir)
              (final_path mi dir)) pre /\
    Forall (transfer_event (temp_path mi dir) (final_path mi dir)) rest /\
    match get_reply w (range_of k) with
    | GetFailed =>
        fst (download mi dir w resume s)
          = Raise (Exc_download_failed RequestException) /\
        rest = [] /\ fs s' = base
    | GetStream chunks StreamBroken =>
        fst (download mi dir w resume s)
          = Raise (Exc_download_failed RequestException) /\
        fs s' = <[temp_path mi dir := kept mi dir k s ++ concat chunks]> base /\
        Forall (fun e => is_rename e = false) rest
    | GetStream _ StreamDone => True
    end.
Proof.
  intros Hn Hnz Hc. cbn zeta.
  destruct (download_outcome mi dir w resume s) as (r & s' & Hrun & Hcase).
  rewrite Hn in Hcase. apply Z.eqb_neq in Hnz as Hnz'.
  rewrite Hnz', Hc in Hcase. cbn zeta in Hcase.
  destruct Hcase as (pre & rest & Hev & Hpre & Hrest & Hcase).
  rewrite Hrun. exists s', pre, rest. cbn [fst snd].
  do 4 (split; [done|]).
  destruct (get_reply w _) as [|chunks ending]; [exact Hcase|].
  destruct ending; [exact I|exact Hcase].
Qed.

(** X5. When the stream breaks, [download] fails with "Download failed",
    the partial file holds the kept bytes followed by every chunk received
    before the break, the final path holds what it held, and no rename
    happened. *)
Theorem broken_stream_keeps_partial mi dir w resume s n chunks :
  fst (get_remote_size w (get_download_url mi) s) = Ok n ->
  n <> 0 ->
  already_complete mi dir n s = false ->
  get_reply w (range_of (start_offset mi dir w resume s))
    = GetStream chunks StreamBroken ->
  let s' := snd (download mi dir w resume s) in
  fst (download mi dir w resume s)
    = Raise (Exc_download_failed RequestException) /\
  fs s' !! temp_path mi dir
    = Some (kept mi dir (start_offset mi dir w resume s) s ++ concat chunks) /\
  fs s' !! final_path mi dir = fs s !! final_path mi dir /\
  Forall (fun e => is_rename e = false) (new_events s s').
Proof.
  intros Hn Hnz Hc Hget. cbn zeta.
  destruct (failed_run mi dir w resume s n Hn Hnz Hc)
    as (s' & pre & rest & -> & Hev & Hpre & Hrest & Hcase).
  cbn zeta in Hcase. rewrite Hget in Hcase. destruct Hcase as (Hr & Hfs & Hnr).
  split; [exact Hr|]. split; [by rewrite Hfs, lookup_insert_eq|]. split.
  - rewrite Hfs, lookup_insert_ne by apply not_eq_sym, temp_path_neq.
    destruct (discards mi dir w resume s); [|done].
    apply lookup_delete_ne, not_eq_sym, temp_path_neq.
  - rewrite Hev. constructor; [done|]. apply Forall_app; split.
    + eapply Forall_impl; [exact Hpre|]. by intros [].
    + by constructor.
Qed.

Lemma broken_stream_keeps_partial_witness :
  let w := Sample.server (Some "5") true
             (fun _ => GetStream [Sample.abc] StreamBroken) in
  let s' := snd (download Sample.model Sample.dir w true (init_state ∅)) in
  fst (download Sample.model Sample.dir w true (init_state ∅))
    = Raise (Exc_download_failed RequestException) /\
  fs s' !! Sample.tmp = Some Sample.abc /\
  fs s' !! Sample.final = None.
Proof.
  cbn zeta.
  destruct (broken_stream_keeps_partial Sample.model Sample.dir
              (Sample.server (Some "5") true
                 (fun _ => GetStream [Sample.abc] StreamBroken)) true
              (init_state ∅) 5 [Sample.abc])
    as (Hr & Htmp & Hfin & _); try (vm_compute; reflexivity).
  - lia.
  - repeat split; assumption.
Defined.

(** X6. When the GET request itself fails, [download] fails with "Download
    failed" and nothing is opened or written after the request.  A partial
    file that was to be resumed is left exactly as it was; a partial file
    that was discarded has already been deleted and is lost. *)
Theorem failed_get mi dir w resume s n :
  fst (get_remote_size w (get_download_url mi) s) = Ok n ->
  n <> 0 ->
  already_complete mi dir n s = false ->
  get_reply w (range_of (start_offset mi dir w resume s)) = GetFailed ->
  let s' := snd (download mi dir w resume s) in
  fst (download mi dir w resume s)
    = Raise (Exc_download_failed RequestException) /\
  (exists pre, new_events s s'
               = pre ++ [EvGet (get_download_url mi)
                           (range_of (start_offset mi dir w resume s))]) /\
  fs s' !! final_path mi dir = fs s !! final_path mi dir /\
  fs s' !! temp_path mi dir
    = (if discards mi dir w resume s then None else fs s !! temp_path mi dir).
Proof.
  intros Hn Hnz Hc Hget. cbn zeta.
  destruct (failed_run mi dir w resume s n Hn Hnz Hc)
    as (s' & pre & rest & -> & Hev & _ & _ & Hcase).
  cbn zeta in Hcase. rewrite Hget in Hcase. destruct Hcase as (Hr & -> & Hfs).
  split; [exact Hr|]. split; [by exists (EvHead (get_download_url mi) :: pre)|].
  rewrite Hfs. destruct (discards mi dir w resume s); [|done]. split.
  - apply lookup_delete_ne, not_eq_sym, temp_path_neq.
  - apply lookup_delete_eq.
Qed.

Lemma failed_get_witness :
  let w := Sample.server (Some "5") true (fun _ => GetFailed) in
  let s := init_state {[ Sample.tmp := Sample.abc ]} in
  fs (snd (download Sample.model Sample.dir w true s)) !! Sample.tmp
    = Some Sample.abc /\
  fs (snd (download Sample.model Sample.dir w false s)) !! Sample.tmp = None.
Proof.
  cbn zeta. split.
  - destruct (failed_get Sample.model Sample.dir
                (Sample.server (Some "5") true (fun _ => GetFailed)) true
                (init_state {[ Sample.tmp := Sample.abc ]}) 5)
      as (_ & _ & _ & H).
    + vm_compute; reflexivity.
    + lia.
    + vm_compute; reflexivity.
    + vm_compute; reflexivity.
    + etransitivity; [exact H|]. vm_compute. reflexivity.
  - destruct (failed_get Sample.model Sample.dir
                (Sample.server (Some "5") true (fun _ => GetFailed)) false
                (init_state {[ Sample.tmp := Sample.abc ]}) 5)
      as (_ & _ & _ & H).
    + vm_compute; reflexivity.
    + lia.
    + vm_compute; reflexivity.
    + vm_compute; reflexivity.
    + etransitivity; [exact H|]. vm_compute. reflexivity.
Defined.



(** ** What [download] never does *)

(** X8. [download] never touches a file other than the final file and the
    partial file, and a call that fails leaves the final path as it was (a
    stale final file is only replaced by the rename of a complete
    transfer). *)
Theorem download_frame mi dir w resume s :
  let s' := snd (download mi dir w resume s) in
  (forall p, p <> final_path mi dir -> p <> temp_path mi dir ->
             fs s' !! p = fs s !! p) /\
  (forall e, fst (download mi dir w resume s) = Raise e ->
             fs s' !! final_path mi dir = fs s !! final_path mi dir).
Proof.
  cbn zeta.
  destruct (download_outcome mi dir w resume s) as (r & s' & Hrun & Hcase).
  rewrite Hrun. cbn [fst snd].
  destruct (fst (get_remote_size w (get_download_url mi) s)) as [n|e0].
  2:{ destruct Hcase as [_ ->]. by split. }
  destruct (n =? 0); [destruct Hcase as [_ ->]; by split|].
  destruct (already_complete mi dir n s); [destruct Hcase as [_ ->]; by split|].
  cbn zeta in Hcase. destruct Hcase as (pre & rest & _ & _ & _ & Hcase).
  set (base := if discards mi dir w resume s
               then delete (temp_path mi dir) (fs s) else fs s) in *.
  assert (forall p, p <> temp_path mi dir -> base !! p = fs s !! p) as Hbase.
  { intros p Hp. unfold base. destruct (discards mi dir w resume s); [|done].
    by apply lookup_delete_ne. }
  assert (forall data p, p <> temp_path mi dir ->
            (<[temp_path mi dir := data]> base) !! p = fs s !! p) as Hins.
  { intros data p Hp. rewrite lookup_insert_ne by done. by apply Hbase. }
  pose proof (temp_path_neq mi dir) as Hneq.
  destruct (get_reply w _) as [|chunks ending].
  { destruct Hcase as (_ & _ & ->). split; intros; by apply Hbase. }
  destruct ending.
  - destruct (_ =? n).
    + destruct Hcase as (-> & -> & _). split; [|done].
      intros p Hp1 Hp2. rewrite lookup_insert_ne by done.
      rewrite lookup_delete_ne by done. by apply Hbase.
    + destruct Hcase as (_ & -> & _). split; intros; by apply Hins.
  - destruct Hcase as (_ & -> & _). split; intros; by apply Hins.
Qed.

(** X9. Every request of a call goes to the download URL of the model; the
    final path is only looked up and is the target of the rename; nothing
    but the partial file is removed, opened or written, and it is never
    opened for reading; the only rename is from the partial path to the
    final path.  A call sends at most one GET request: there is no retry. *)
Theorem download_reach mi dir w resume s :
  let evs := new_events s (snd (download mi dir w resume s)) in
  Forall (scoped (get_download_url mi) (temp_path mi dir) (final_path mi dir)) evs /\
  (length (gets evs) <= 1)%nat.
Proof.
  cbn zeta.
  destruct (download_outcome mi dir w resume s) as (r & s' & Hrun & Hcase).
  rewrite Hrun. cbn [snd].
  destruct (fst (get_remote_size w (get_download_url mi) s)) as [n|e0].
  2:{ destruct Hcase as [_ ->]. erewrite new_events_app by trace_eq.
      split; [scope|cbn; lia]. }
  destruct (n =? 0).
  { destruct Hcase as [_ ->]. erewrite new_events_app by trace_eq.
    split; [scope|cbn; lia]. }
  destruct (already_complete mi dir n s).
  { destruct Hcase as [_ ->]. erewrite new_events_app by trace_eq.
    split; [scope|cbn; lia]. }
  cbn zeta in Hcase. destruct Hcase as (pre & rest & -> & Hpre & Hrest & _).
  split.
  - constructor; [done|]. apply Forall_app; split.
    + by apply prelude_scoped_scoped.
    + constructor; [done|]. by apply transfer_event_scoped.
  - cbn. rewrite gets_app. cbn.
    rewrite (prelude_scoped_no_get _ _ _ _ Hpre).
    rewrite (transfer_event_no_get _ _ _ Hrest). cbn. lia.
Qed.

(** ** The throttle of the streaming loop *)

Lemma callbacks_app a b : callbacks (a ++ b) = callbacks a ++ callbacks b.
Proof.
  induction a as [|e a IH]; [reflexivity|]. destruct e; cbn; by rewrite ?IH.
Qed.

Section Throttle.
Context (mi : ModelInfo) (dir : string) (w : world).

(** One chunk: either no report is made and the time of the last report is
    kept, or one report is made, at least one second after the last, and
    its time is recorded. *)
Lemma on_chunk_throttle (n : Z) (chunk : bytes) (d : Z) (s : state) :
  exists s' evs,
    snd (on_chunk mi dir w n chunk d s) = s' /\
    fst (on_chunk mi dir w n chunk d s) = Ok (d + len chunk) /\
    trace s' = trace s ++ evs /\
    (ticks s <= ticks s' <= S (ticks s))%nat /\
    ((callbacks evs = [] /\ last_progress_time s' = last_progress_time s) \/
     (length (callbacks evs) = 1%nat /\
      last_progress_time s' = clock w (ticks s) /\
      (1 <= clock w (ticks s) - last_progress_time s)%Qc)).
Proof.
  destruct chunk as [|b chunk].
  { exists s, []. unfold on_chunk, len. run. rewrite Z.add_0_r, app_nil_r.
    repeat split; auto. }
  unfold on_chunk. set (c := b :: chunk). run.
  destruct (Qc_leb _ _) eqn:Hdue.
  - apply Qc_leb_le in Hdue.
    match goal with |- context [Qc_ltb 0%Qc ?e] => destruct (Qc_ltb 0%Qc e) eqn:He end.
    + apply Qc_ltb_lt in He. rewrite py_truediv_ok by by apply Qclt_not_eq in He.
      run.
      match goal with |- context [_report_progress ?a ?b ?c ?st] =>
        destruct (report_progress_run a b c st) as (p & msg & _ & ->) end.
      run. eexists _, _. split; [reflexivity|]. split; [reflexivity|]. cbn.
      rewrite <- app_assoc. split; [reflexivity|]. split; [lia|]. right. done.
    + run.
      match goal with |- context [_report_progress ?a ?b ?c ?st] =>
        destruct (report_progress_run a b c st) as (p & msg & _ & ->) end.
      run. eexists _, _. split; [reflexivity|]. split; [reflexivity|]. cbn.
      rewrite <- app_assoc. split; [reflexivity|]. split; [lia|]. right. done.
  - run. eexists _, _. split; [reflexivity|]. split; [reflexivity|]. cbn.
    split; [reflexivity|]. split; [lia|]. left. done.
Qed.

Lemma stream_loop_throttle (n : Z) (chunks : list bytes) :
  forall (d : Z) (s : state) (T : Qc),
    (forall i, (ticks s <= i < ticks s + length chunks)%nat ->
               (clock w i <= T)%Qc) ->
    (last_progress_time s <= T)%Qc ->
    exists s' evs,
      snd (stream_loop mi dir w n chunks d s) = s' /\
      trace s' = trace s ++ evs /\
      (Qc_of_Z (Z.of_nat (length (callbacks evs)))
       <= last_progress_time s' - last_progress_time s)%Qc /\
      (last_progress_time s' <= T)%Qc.
Proof.
  induction chunks as [|c rest IH]; intros d s T Hclock HT.
  - exists s, []. split; [reflexivity|]. split; [by rewrite app_nil_r|].
    split; [|done].
    change (Qc_of_Z (Z.of_nat (length (callbacks [])))) with (Qc_of_Z 0).
    rewrite Z2Qc_inj_0.
    replace (last_progress_time s - last_progress_time s)%Qc with 0%Qc by ring.
    apply Qcle_refl.
  - unfold stream_loop. fold stream_loop. unfold bind.
    destruct (on_chunk_throttle n c d s)
      as (s1 & e1 & Hs1 & Hr1 & Htr1 & Htick & Hcase).
    destruct (on_chunk mi dir w n c d s) as [r1 s1']. cbn in Hs1, Hr1. subst r1 s1'.
    assert ((last_progress_time s1 <= T)%Qc) as HT1.
    { destruct Hcase as [[_ ->]|(_ & -> & _)]; [exact HT|].
      apply Hclock. cbn [length]. lia. }
    destruct (IH (d + len c) s1 T) as (s2 & e2 & Hs2 & Htr2 & Hcount & HT2).
    { intros i Hi. apply Hclock. cbn [length]. lia. }
    { exact HT1. }
    exists s2, (e1 ++ e2). split; [exact Hs2|].
    split; [by rewrite Htr2, Htr1, <- app_assoc|]. split; [|exact HT2].
    rewrite callbacks_app, length_app, Nat2Z.inj_add, Z2Qc_inj_add.
    replace (last_progress_time s2 - last_progress_time s)%Qc
      with ((last_progress_time s1 - last_progress_time s)
            + (last_progress_time s2 - last_progress_time s1))%Qc by ring.
    apply Qcplus_le_compat; [|exact Hcount].
    destruct Hcase as [[-> ->]|(-> & -> & Hdue)].
    + replace (last_progress_time s - last_progress_time s)%Qc with 0%Qc by ring.
      change (Qc_of_Z (Z.of_nat (length (@nil (Qc * message))))) with (Qc_of_Z 0).
      rewrite Z2Qc_inj_0. apply Qcle_refl.
    + change (Qc_of_Z (Z.of_nat 1)) with (Qc_of_Z 1). by rewrite Z2Qc_inj_1.
Qed.

End Throttle.

(** Once the clock reads at least [lo] and at most [hi], the loop makes at
    most one report more than the seconds between [lo] and [hi]. *)
Lemma stream_loop_window mi dir w (n : Z) (chunks : list bytes) (lo hi : Qc) :
  (lo <= hi)%Qc ->
  forall (d : Z) (s : state),
    (forall i, (ticks s <= i < ticks s + length chunks)%nat ->
               (lo <= clock w i)%Qc /\ (clock w i <= hi)%Qc) ->
    exists evs,
      trace (snd (stream_loop mi dir w n chunks d s)) = trace s ++ evs /\
      (Qc_of_Z (Z.of_nat (length (callbacks evs))) <= 1 + (hi - lo))%Qc.
Proof.
  intros Hle. induction chunks as [|c rest IH]; intros d s Hclock.
  - exists []. split; [by rewrite app_nil_r|].
    change (Qc_of_Z (Z.of_nat (length (callbacks [])))) with (Qc_of_Z 0).
    rewrite Z2Qc_inj_0.
    apply (Qcplus_le_compat 0 1 0 (hi - lo)); [done|].
    pose proof (Qcplus_le_compat lo hi (- lo) (- lo) Hle (Qcle_refl _)) as H0.
    replace (lo + - lo)%Qc with 0%Qc in H0 by ring. exact H0.
  - unfold stream_loop. fold stream_loop. unfold bind.
    destruct (on_chunk_throttle mi dir w n c d s)
      as (s1 & e1 & Hs1 & Hr1 & Htr1 & Htick & Hcase).
    destruct (on_chunk mi dir w n c d s) as [r1 s1']. cbn in Hs1, Hr1. subst r1 s1'.
    assert (forall i, (ticks s1 <= i < ticks s1 + length rest)%nat ->
              (lo <= clock w i)%Qc /\ (clock w i <= hi)%Qc) as Hclock1
      by (intros i Hi; apply Hclock; cbn [length]; lia).
    assert ((ticks s <= ticks s < ticks s + length (c :: rest))%nat) as Hnow
      by (cbn [length]; lia).
    change (exists evs,
              trace (snd (stream_loop mi dir w n rest (d + len c) s1))
              = trace s ++ evs /\
              (Qc_of_Z (Z.of_nat (length (callbacks evs))) <= 1 + (hi - lo))%Qc).
    destruct Hcase as [[Hnone Hsame]|(Hone & Hat & _)].
    + destruct (IH (d + len c) s1 Hclock1) as (e2 & Htr2 & Hcount).
      exists (e1 ++ e2). split; [by rewrite Htr2, Htr1, <- app_assoc|].
      by rewrite callbacks_app, Hnone.
    + destruct (stream_loop_throttle mi dir w n rest (d + len c) s1 hi)
        as (s2 & e2 & Hs2 & Htr2 & Hcount & Hlast).
      { intros i Hi. by apply Hclock1. }
      { rewrite Hat. by apply Hclock. }
      exists (e1 ++ e2). rewrite Hs2. split; [by rewrite Htr2, Htr1, <- app_assoc|].
      rewrite callbacks_app, length_app, Nat2Z.inj_add, Z2Qc_inj_add, Hone.
      change (Qc_of_Z (Z.of_nat 1)) with (Qc_of_Z 1). rewrite Z2Qc_inj_1.
      apply Qcplus_le_compat; [done|].
      eapply Qcle_trans; [exact Hcount|]. rewrite Hat.
      unfold Qcminus. apply Qcplus_le_compat; [exact Hlast|].
      apply Qcopp_le_compat. by apply Hclock.
Qed.

Lemma no_report_count (k : nat) : (Qc_of_Z (Z.of_nat k) < 1)%Qc -> k = 0%nat.
Proof.
  intros H. rewrite <- Z2Qc_inj_1 in H. apply Z2Qc_inj_lt in H. lia.
Qed.

(** X10. The loop reports at most once per second.  When every reading of
    the clock during the loop (there is at most one per chunk) lies between
    [lo] and [hi], the loop makes at most one report more than the seconds
    from [lo] to [hi], whatever the number of chunks; counted from the
    previous report, it makes at most as many reports as seconds have passed
    since; and it makes none when the last reading is less than a second
    after the previous report. *)
Theorem reports_throttled mi dir w n chunks d s (lo hi : Qc) :
  (lo <= hi)%Qc ->
  (forall i, (ticks s <= i < ticks s + length chunks)%nat ->
             (lo <= clock w i)%Qc /\ (clock w i <= hi)%Qc) ->
  let reports :=
    callbacks (new_events s (snd (stream_loop mi dir w n chunks d s))) in
  (Qc_of_Z (Z.of_nat (length reports)) <= 1 + (hi - lo))%Qc /\
  ((last_progress_time s <= hi)%Qc ->
   (Qc_of_Z (Z.of_nat (length reports)) <= hi - last_progress_time s)%Qc) /\
  ((hi < last_progress_time s + 1)%Qc -> reports = []).
Proof.
  intros Hle0 Hclock. cbn zeta.
  assert (forall T, (hi <= T)%Qc -> (last_progress_time s <= T)%Qc ->
            (Qc_of_Z (Z.of_nat (length (callbacks (new_events s
               (snd (stream_loop mi dir w n chunks d s))))))
             <= T - last_progress_time s)%Qc) as Hsince.
  { intros T HhiT HT.
    destruct (stream_loop_throttle mi dir w n chunks d s T)
      as (s' & evs & -> & Htr & Hcount & HT'); [|exact HT|].
    { intros i Hi. eapply Qcle_trans; [by apply Hclock|exact HhiT]. }
    rewrite (new_events_app s s' evs Htr).
    eapply Qcle_trans; [exact Hcount|].
    unfold Qcminus. apply Qcplus_le_compat; [exact HT'|apply Qcle_refl]. }
  split; [|split].
  - destruct (stream_loop_window mi dir w n chunks lo hi Hle0 d s Hclock)
      as (evs & Htr & Hcount).
    by rewrite (new_events_app s _ evs Htr).
  - intros HT. apply Hsince; [apply Qcle_refl|exact HT].
  - intros Hsoon.
    apply length_zero_iff_nil, no_report_count.
    destruct (Qclt_le_dec hi (last_progress_time s)) as [Hlt|Hle].
    + eapply Qcle_lt_trans.
      * apply (Hsince (last_progress_time s)); [by apply Qclt_le_weak|apply Qcle_refl].
      * by replace (last_progress_time s - last_progress_time s)%Qc with 0%Qc by ring.
    + eapply Qcle_lt_trans; [apply (Hsince hi); [apply Qcle_refl|exact Hle]|].
      apply Qclt_minus_iff. apply Qclt_minus_iff in Hsoon.
      replace (1 + - (hi - last_progress_time s))%Qc
        with (last_progress_time s + 1 + - hi)%Qc by ring.
      exact Hsoon.
Qed.

(** Five chunks arrive within the same second on a fresh downloader: the
    first is reported, the other four are not. *)
Lemma reports_throttled_witness :
  let w := mkWorld HeadFailed HeadFailed (fun _ => GetFailed)
             (fun _ => Qc_of_Z 1000) in
  let reports :=
    callbacks (new_events (init_state ∅)
      (snd (stream_loop Sample.model Sample.dir w 12
              [Sample.abc; Sample.de; Sample.abc; Sample.de; Sample.de] 0
              (init_state ∅)))) in
  length reports = 1%nat /\
  (Qc_of_Z (Z.of_nat (length reports)) <= 1 + (Qc_of_Z 1000 - Qc_of_Z 1000))%Qc.
Proof.
  cbn zeta. split; [vm_compute; reflexivity|].
  apply (reports_throttled Sample.model Sample.dir
           (mkWorld HeadFailed HeadFailed (fun _ => GetFailed)
              (fun _ => Qc_of_Z 1000)) 12
           [Sample.abc; Sample.de; Sample.abc; Sample.de; Sample.de] 0
           (init_state ∅) (Qc_of_Z 1000) (Qc_of_Z 1000)).
  - apply Qcle_refl.
  - intros i _. split; apply Qcle_refl.
Defined.

(** ** The range of the percentage *)

Lemma Qc_of_Z_pos (n : Z) : 0 < n -> (0 < Qc_of_Z n)%Qc.
Proof.
  intros H. apply (proj1 (Z2Qc_inj_lt 0 n)) in H. by rewrite Z2Qc_inj_0 in H.
Qed.

Lemma Qc_of_Z_nonneg (n : Z) : 0 <= n -> (0 <= Qc_of_Z n)%Qc.
Proof.
  intros H. apply (proj1 (Z2Qc_inj_le 0 n)) in H. by rewrite Z2Qc_inj_0 in H.
Qed.

(** X11. The percentage is not clamped.  For byte counts that fit a
    double, it is never negative; it is at most 100 as long as the bytes
    received do not exceed the announced total, at least 100 once they
    reach it, and at least 200 once they reach twice the total.  (These
    bounds are kept by rounding to doubles, which is monotone and leaves
    0, 1, 2, 100 and 200 unchanged; a strict bound would not be.) *)
Theorem percent_range (downloaded total : Z) :
  0 <= downloaded < 2 ^ 1023 -> 0 < total ->
  exists p,
    percent_of downloaded total = Ok p /\
    (0 <= p)%Qc /\
    (downloaded <= total -> (p <= Qc_of_Z 100)%Qc) /\
    (total <= downloaded -> (Qc_of_Z 100 <= p)%Qc) /\
    (2 * total <= downloaded -> (Qc_of_Z 200 <= p)%Qc).
Proof.
  intros [Hd _] Ht. rewrite percent_of_total.
  apply Z.ltb_lt in Ht as Ht'. rewrite Ht'. eexists. split; [reflexivity|].
  assert (0 < Qc_of_Z total)%Qc as Htq by by apply Qc_of_Z_pos.
  assert (0 < Qc_of_Z 100)%Qc as Hcq by by apply Qc_of_Z_pos.
  assert (0 < / Qc_of_Z total)%Qc as Hinv by by apply Qcinv_pos.
  assert (forall x : Qc,
            (x / Qc_of_Z total * Qc_of_Z 100
             = x * (Qc_of_Z 100 * / Qc_of_Z total))%Qc) as Hshape
    by (intros x; unfold Qcdiv; ring).
  assert (Qc_of_Z total <> 0%Qc) as Hnz
    by (intros E; rewrite E in Htq; by apply Qclt_not_eq in Htq).
  assert (Qc_of_Z 100
          = Qc_of_Z total * (Qc_of_Z 100 * / Qc_of_Z total))%Qc as H100
    by by field.
  assert (Qc_of_Z 200
          = Qc_of_Z (2 * total) * (Qc_of_Z 100 * / Qc_of_Z total))%Qc as H200.
  { rewrite Z2Qc_inj_mul. change (Qc_of_Z 200) with (Qc_of_Z (2 * 100)).
    rewrite Z2Qc_inj_mul. by field. }
  assert (0 < Qc_of_Z 100 * / Qc_of_Z total)%Qc as Hfac
    by by apply Qcmult_pos_pos.
  rewrite Hshape. split; [|split; [|split]].
  - apply Qcmult_nonneg_nonneg; [|by apply Qclt_le_weak].
    by apply Qc_of_Z_nonneg.
  - intros Hle. rewrite H100 at 2. apply Qcmult_le_mono_pos_r; [exact Hfac|].
    apply (proj1 (Z2Qc_inj_le _ _)). exact Hle.
  - intros Hle. rewrite H100 at 1. apply Qcmult_le_mono_pos_r; [exact Hfac|].
    apply (proj1 (Z2Qc_inj_le _ _)). exact Hle.
  - intros Hle. rewrite H200. apply Qcmult_le_mono_pos_r; [exact Hfac|].
    apply (proj1 (Z2Qc_inj_le _ _)). exact Hle.
Qed.

(** Seven bytes received where three were announced. *)
Lemma percent_range_witness :
  exists p, percent_of 7 3 = Ok p /\ (Qc_of_Z 200 <= p)%Qc.
Proof.
  destruct (percent_range 7 3) as (p & Hp & _ & _ & _ & Hover); [|lia|].
  - split; [lia|]. vm_compute. reflexivity.
  - exists p. split; [exact Hp|]. apply Hover. lia.
Defined.

(** ** Reading the file in blocks *)

Section Blocks.
Context {hasher : Type} (update : hasher -> bytes -> hasher).

(** X12. [calculate_checksum] feeds the file to the hash object in blocks
    that, put end to end, are the file: no block is empty, every block but
    the last has 8192 bytes, and the last has at most 8192. *)
Theorem hash_chunks_blocks (h : hasher) (data : bytes) :
  exists blocks,
    concat blocks = data /\
    Forall (fun b => b <> [] /\ (length b <= read_size)%nat) blocks /\
    (forall i b, blocks !! i = Some b -> (S i < length blocks)%nat ->
                 length b = read_size) /\
    hash_chunks update h data = fold_left update blocks h.
Proof.
  apply (hash_chunks_elim update
           (fun h data r =>
              exists blocks,
                concat blocks = data /\
                Forall (fun b => b <> [] /\ (length b <= read_size)%nat) blocks /\
                (forall i b, blocks !! i = Some b -> (S i < length blocks)%nat ->
                             length b = read_size) /\
                r = fold_left update blocks h)); clear h data.
  - intros h unread e _. exists []. split; [|by repeat split].
    destruct unread as [|x unread]; [reflexivity|].
    unfold read_size in e. change (Z.to_nat 8192) with (S (Z.to_nat 8191)) in e.
    discriminate.
  - intros h unread b chunk e (blocks & Hcat & Hall & Hfull & ->) _.
    exists ((b :: chunk) :: blocks). split; [|split; [|split]].
    + cbn [concat]. rewrite Hcat, <- e. apply take_drop.
    + constructor; [|exact Hall]. split; [done|].
      rewrite <- e, length_take. lia.
    + intros [|i] blk Hlook Hlen; cbn in Hlook, Hlen.
      * injection Hlook as <-. rewrite <- e, length_take.
        destruct blocks as [|blk' blocks]; [cbn in Hlen; lia|].
        apply Forall_cons in Hall as [[Hne _] _].
        assert (length (drop read_size unread) <> 0%nat) as Hrest.
        { rewrite <- Hcat. cbn. rewrite length_app.
          destruct blk'; [done|cbn; lia]. }
        rewrite length_drop in Hrest. lia.
      * apply (Hfull i blk Hlook). lia.
    + reflexivity.
Qed.

(** For a hash object whose [update] does not depend on how the input is
    cut, the loop amounts to one [update] with the whole input. *)
Lemma hash_chunks_whole (h : hasher) (data : bytes) :
  (forall h0 a b, update (update h0 a) b = update h0 (a ++ b)) ->
  hash_chunks update h data
  = match data with [] => h | _ => update h data end.
Proof.
  intros Hstream.
  apply (hash_chunks_elim update
           (fun h data r => r = match data with [] => h | _ => update h data end));
    clear h data.
  - intros h unread e _. destruct unread as [|x unread]; [reflexivity|].
    unfold read_size in e. change (Z.to_nat 8192) with (S (Z.to_nat 8191)) in e.
    discriminate.
  - intros h unread b chunk e -> _.
    destruct unread as [|x u]; [discriminate e|]. set (U := x :: u) in *.
    assert (U = (b :: chunk) ++ drop read_size U) as HU
      by (rewrite <- e; symmetry; apply take_drop).
    change (match drop read_size U with
            | [] => update h (b :: chunk)
            | _ => update (update h (b :: chunk)) (drop read_size U)
            end = update h U).
    revert HU. generalize (drop read_size U). intros D ->.
    destruct D as [|y D]; [by rewrite app_nil_r|]. apply Hstream.
Qed.

(** X13. With such a hash object, [calculate_checksum] on an existing final
    file gives what [hexdigest()] gives on the hash object updated once with
    the whole file, and on the fresh hash object when the file is empty
    ([update] is then never called): the hex digest, or, for a digest of
    variable length, the exception that [hexdigest()] raises. *)
Theorem checksum_whole_file (hashlib_new : string -> option hasher)
    (hexdigest : hasher -> result string) mi dir algorithm s data h0 :
  (forall h a b, update (update h a) b = update h (a ++ b)) ->
  fs s !! final_path mi dir = Some data ->
  hashlib_new algorithm = Some h0 ->
  fst (calculate_checksum hashlib_new update hexdigest mi dir algorithm s)
  = hexdigest match data with [] => h0 | _ => update h0 data end.
Proof.
  intros Hstream Hd Hnew. rewrite calculate_checksum_run, Hd, Hnew. cbn.
  by rewrite (hash_chunks_whole h0 data Hstream).
Qed.
End Blocks.

Lemma toy_update_streams (h : Toy.hasher) (a b : bytes) :
  Toy.update (Toy.update h a) b = Toy.update h (a ++ b).
Proof. unfold Toy.update. cbn. by rewrite app_assoc. Qed.

(** A fixed-length digest of the sample file, and a variable-length one. *)
Lemma checksum_whole_file_witness :
  let s := init_state {[ Sample.final := Sample.abc ]} in
  fst (calculate_checksum Toy.new Toy.update Toy.hexdigest
         Sample.model Sample.dir "md5" s) = Ok "abc"%string /\
  fst (calculate_checksum Toy.new Toy.update Toy.hexdigest
         Sample.model Sample.dir "shake_128" s) = Raise TypeError_length.
Proof.
  cbn zeta. split.
  - etransitivity.
    + apply (checksum_whole_file Toy.update Toy.new Toy.hexdigest
               Sample.model Sample.dir "md5"
               (init_state {[ Sample.final := Sample.abc ]}) Sample.abc
               (false, [])).
      * exact toy_update_streams.
      * vm_compute; reflexivity.
      * reflexivity.
    + reflexivity.
  - etransitivity.
    + apply (checksum_whole_file Toy.update Toy.new Toy.hexdigest
               Sample.model Sample.dir "shake_128"
               (init_state {[ Sample.final := Sample.abc ]}) Sample.abc
               (true, [])).
      * exact toy_update_streams.
      * vm_compute; reflexivity.
      * reflexivity.
    + reflexivity.
Defined.

(** ** Keys of the catalog *)
Section CatalogKeys.
Import Catalog.

(** X14. [get_model_info] and [list_available_models] agree: a key is
    accepted by [get_model_info] exactly when it is in the listed
    dictionary, the object returned is the one listed under that key, and a
    key that is not listed raises [ValueError] for that key.  Listing does
    not change what [get_model_info] answers. *)
Theorem lookup_agrees_with_listing (p : pystate) (key : string) :
  let '(d, p') := list_available_models p in
  get_model_info key p
    = match entries_at d p' !! key with
      | Some l => Ok l
      | None => Raise (ValueError_unknown_model key)
      end /\
  get_model_info key p' = get_model_info key p.
Proof.
  unfold list_available_models, get_model_info.
  rewrite entries_at_new. cbn [RECOMMENDED_MODELS]. split; [reflexivity|].
  f_equal. unfold entries_at at 1. cbn [heap].
  destruct (decide (fresh (dom (heap p)) = RECOMMENDED_MODELS p)) as [E|E].
  - rewrite <- E, lookup_insert_eq. unfold entries_at.
    by rewrite fresh_not_allocated.
  - rewrite lookup_insert_ne by done. reflexivity.
Qed.

End CatalogKeys.

(** ** Paths and URLs *)

Lemma string_app_assoc (a b c : string) : (a +:+ b) +:+ c = a +:+ (b +:+ c).
Proof.
  induction a as [|x a IH]; [reflexivity|].
  change (String x ((a +:+ b) +:+ c) = String x (a +:+ (b +:+ c))).
  by rewrite IH.
Qed.

Lemma list_ascii_app (a b : string) :
  list_ascii_of_string (a +:+ b)
  = list_ascii_of_string a ++ list_ascii_of_string b.
Proof.
  induction a as [|x a IH]; [reflexivity|].
  change (x :: list_ascii_of_string (a +:+ b)
          = x :: (list_ascii_of_string a ++ list_ascii_of_string b)).
  by rewrite IH.
Qed.

Lemma plain_name_download (name : string) :
  plain_name name = true -> plain_name (name +:+ ".download") = true.
Proof.
  unfold plain_name. intros H.
  apply andb_prop in H as [H Hall]. apply andb_prop in H as [Hne _].
  rewrite list_ascii_app, forallb_app, Hall.
  destruct name as [|c name]; [discriminate Hne|].
  assert ((String c name +:+ ".download" =? "")%string = false) as ->
    by reflexivity.
  assert ((String c name +:+ ".download" =? ".")%string = false) as ->.
  { apply String.eqb_neq. intros E. injection E as _ E. by destruct name. }
  reflexivity.
Qed.

(** X15. For file names that [pathlib] joins to the directory unchanged
    (not empty, not [.], without a slash): the name of the partial file is
    such a name too; the partial path is the final path followed by
    [.download]; the two are never equal; in one directory, two models have
    the same final path only if they have the same file name, and the
    partial path of one is the final path of the other exactly when the
    other's file name is the first one's followed by [.download]. *)
Theorem paths_of_models mi mi' dir :
  plain_name (filename mi) = true ->
  plain_name (filename mi') = true ->
  plain_name (filename mi +:+ ".download") = true /\
  temp_path mi dir = final_path mi dir +:+ ".download" /\
  temp_path mi dir <> final_path mi dir /\
  (final_path mi dir = final_path mi' dir <-> filename mi = filename mi') /\
  (temp_path mi dir = final_path mi' dir
   <-> filename mi' = filename mi +:+ ".download").
Proof.
  intros Hplain _. split; [by apply plain_name_download|].
  clear Hplain.
  split; [|split; [|split]].
  - unfold temp_path, final_path. by rewrite !string_app_assoc.
  - apply not_eq_sym, temp_path_neq.
  - unfold final_path. split; [|by intros ->].
    intros H. by do 2 apply String.app_inj in H.
  - unfold temp_path, final_path. split; [|by intros ->].
    intros H. by do 2 apply String.app_inj in H.
Qed.

Lemma paths_of_models_witness :
  temp_path Sample.model Sample.dir = "/out/m.gguf.download"%string /\
  temp_path Sample.model Sample.dir <> final_path Sample.model Sample.dir.
Proof.
  destruct (paths_of_models Sample.model Sample.model Sample.dir)
    as (_ & Htmp & Hneq & _).
  - vm_compute. reflexivity.
  - vm_compute. reflexivity.
  - split; [|exact Hneq]. etransitivity; [exact Htmp|]. vm_compute. reflexivity.
Defined.

(** X16. For one repository, different file names give different download
    URLs; but the URL does not determine the repository and the file name
    together: a separator [/resolve/main/] inside either of them can be read
    both ways. *)
Theorem download_url_of_filename mi mi' :
  repo_id mi = repo_id mi' ->
  (get_download_url mi = get_download_url mi' <-> filename mi = filename mi') /\
  (forall r f g d s q,
     get_download_url (mkModelInfo r (f +:+ "/resolve/main/" +:+ g) d s q)
     = get_download_url (mkModelInfo (r +:+ "/resolve/main/" +:+ f) g d s q)).
Proof.
  intros Hrepo. split.
  - unfold get_download_url. rewrite Hrepo. split; [|by intros ->].
    intros H. by do 3 apply String.app_inj in H.
  - intros r f g d s q. unfold get_download_url. cbn [repo_id filename].
    by rewrite !string_app_assoc.
Qed.

Lemma download_url_of_filename_witness :
  get_download_url Sample.model
  = get_download_url (mkModelInfo "user/repo" "m.gguf" "other" 0%Qc "q")
  <-> filename Sample.model = "m.gguf".
Proof.
  apply (download_url_of_filename Sample.model
           (mkModelInfo "user/repo" "m.gguf" "other" 0%Qc "q")).
  reflexivity.
Defined.

(** ** Requests *)

Lemma heads_app a b : heads (a ++ b) = heads a ++ heads b.
Proof.
  induction a as [|e a IH]; [reflexivity|]. destruct e; cbn; by rewrite ?IH.
Qed.

Lemma transfer_event_no_head tmp final evs :
  Forall (transfer_event tmp final) evs -> heads evs = [].
Proof.
  induction 1 as [|e evs He _ IH]; [reflexivity|]. by destruct e.
Qed.

(** X17. A call sends one HEAD request to resolve the size, and a second
    one, the range probe, exactly when it got past the checks of the size
    and of the final file, resume was requested and the partial file is not
    empty; it never sends a third. *)
Theorem download_head_requests mi dir w resume s :
  let url := get_download_url mi in
  let probes :=
    match fst (get_remote_size w url s) with
    | Ok n => negb (n =? 0) && negb (already_complete mi dir n s)
              && (0 <? partial_size mi dir s) && resume
    | Raise _ => false
    end in
  heads (new_events s (snd (download mi dir w resume s)))
  = if probes then [url; url] else [url].
Proof.
  cbn zeta.
  destruct (fst (get_remote_size w (get_download_url mi) s)) as [n|e] eqn:Hn.
  2:{ rewrite (download_size_error mi dir w resume s e Hn).
      by erewrite new_events_app by trace_eq. }
  pose proof (download_run mi dir w resume s n Hn) as Hrun.
  destruct (Z.eqb_spec n 0) as [Hz|Hnz].
  { rewrite Hrun. by erewrite new_events_app by trace_eq. }
  destruct (already_complete mi dir n s) eqn:Hc.
  { rewrite Hrun. by erewrite new_events_app by trace_eq. }
  clear Hrun. cbn [negb andb].
  destruct (download_prelude mi dir w resume s n Hn Hnz Hc)
    as (s2 & pre & -> & _ & Htr2 & _ & Hheads).
  destruct (attempt_run mi dir w n (start_offset mi dir w resume s) s2)
    as (r & s' & rest & -> & Htr & Hrest & _).
  cbn [snd]. erewrite new_events_app
    by (rewrite Htr, Htr2, <- app_assoc; reflexivity).
  cbn [heads app]. rewrite heads_app. cbn [heads].
  rewrite Hheads, (transfer_event_no_head _ _ _ Hrest).
  by destruct (_ && resume).
Qed.
